(** * Meeting agent: the transcript analysis pipeline of [main.py]

    A shallow embedding of the heuristic ("fallback") extractors, of the
    response handling of the Gemini-backed extractors, and of the save
    handler that commits a meeting into the session's list.

    Python [str] values are modelled as lists of characters whose code points
    lie below 256 (the Latin-1 block of Unicode), so [ascii] is the character
    type.  [datetime.now()] is a read of a clock, the iteration order of a
    Python [set] and [json.loads] are taken from the run-time system. *)

From Stdlib Require Import List Ascii String ZArith Lia Bool Arith Permutation.
From Stdlib Require Import DecimalString PrimFloat.
Import ListNotations.

Open Scope list_scope.

(** ** Python strings *)

Module PyStr.

Definition str := list ascii.

(** String literals of the source are written [lit "..."]. *)
Definition lit (x : string) : str := list_ascii_of_string x.
Arguments lit x%_string.

Definition eqb (a b : str) : bool :=
  if list_eq_dec ascii_dec a b then true else false.

(** [c.isspace()] on code points below 256: TAB..CR, FS..US, SPACE, NEL, NBSP. *)
Definition isspace (c : ascii) : bool :=
  let n := nat_of_ascii c in
  ((9 <=? n) && (n <=? 13)) || ((28 <=? n) && (n <=? 32))
  || (n =? 133) || (n =? 160).

(** [c.lower()]: A-Z and the Latin-1 capitals (all of C0..DE but the
    multiplication sign D7) move 32 code points up.  Below code point 256
    [str.lower()] works character by character; [Unicode.lower] further down
    has the Greek capital sigma, where it does not. *)
Definition lower_char (c : ascii) : ascii :=
  let n := nat_of_ascii c in
  if ((65 <=? n) && (n <=? 90))
     || ((192 <=? n) && (n <=? 222) && negb (n =? 215))
  then ascii_of_nat (n + 32) else c.

Definition lower (s : str) : str := map lower_char s.

Fixpoint lstrip (s : str) : str :=
  match s with
  | c :: r => if isspace c then lstrip r else s
  | [] => []
  end.

Definition rstrip (s : str) : str := rev (lstrip (rev s)).

(** [s.strip()] *)
Definition strip (s : str) : str := rstrip (lstrip s).

(** [s.startswith(p)] *)
Fixpoint startswith (p s : str) : bool :=
  match p, s with
  | [], _ => true
  | a :: p', b :: s' => Ascii.eqb a b && startswith p' s'
  | _ :: _, [] => false
  end.

(** [sub in s] *)
Fixpoint contains (sub s : str) : bool :=
  startswith sub s ||
  match s with
  | [] => false
  | _ :: r => contains sub r
  end.

(** [s.split(sep)] for a one-character separator: never empty. *)
Fixpoint split (sep : ascii) (s : str) : list str :=
  match s with
  | [] => [[]]
  | c :: r =>
      if Ascii.eqb c sep then [] :: split sep r
      else match split sep r with
           | h :: t => (c :: h) :: t
           | [] => [[c]]
           end
  end.

(** [s.split(sep, 1)]: cut at the first separator only. *)
Fixpoint split1 (sep : ascii) (s : str) : list str :=
  match s with
  | [] => [[]]
  | c :: r =>
      if Ascii.eqb c sep then [[]; r]
      else match split1 sep r with
           | h :: t => (c :: h) :: t
           | [] => [[c]]
           end
  end.

(** [l[i]] where the source has made sure that the index exists. *)
Definition item (l : list str) (i : nat) : str := nth i l [].

(** [sep.join(l)] *)
Fixpoint join (sep : str) (l : list str) : str :=
  match l with
  | [] => []
  | [x] => x
  | x :: r => x ++ sep ++ join sep r
  end.

(** [str(n)] for a non-negative integer. *)
Definition of_nat (n : nat) : str :=
  list_ascii_of_string (NilEmpty.string_of_uint (Nat.to_uint n)).

Definition newline : ascii := ascii_of_nat 10.
Definition colon : ascii := ascii_of_nat 58.

End PyStr.

Import PyStr.

(** ** Calendar dates

    [datetime.now()] is modelled by the number of days since 1970-01-01 of
    the current date: the source only adds whole days to it and formats it
    with ["%Y-%m-%d"], so the time of day is never observed.  The dates of
    interest lie in the years 1000 to 9999, where [datetime] neither
    overflows nor prints a year of fewer than four digits. *)

Module Date.

Open Scope Z_scope.

(** Year, month and day of a day number (proleptic Gregorian calendar). *)
Definition civil (days : Z) : Z * Z * Z :=
  let z := days + 719468 in
  let era := z / 146097 in
  let doe := z - era * 146097 in
  let yoe := (doe - doe / 1460 + doe / 36524 - doe / 146096) / 365 in
  let doy := doe - (365 * yoe + yoe / 4 - yoe / 100) in
  let mp := (5 * doy + 2) / 153 in
  let d := doy - (153 * mp + 2) / 5 + 1 in
  let m := if mp <? 10 then mp + 3 else mp - 9 in
  let y := yoe + era * 400 + (if m <=? 2 then 1 else 0) in
  (y, m, d).

(** A non-negative number in decimal, zero-padded to [width] digits. *)
Definition padded (width : nat) (n : Z) : str :=
  let digits := of_nat (Z.to_nat n) in
  repeat "0"%char (width - List.length digits) ++ digits.

(** [d.strftime("%Y-%m-%d")] *)
Definition strftime_ymd (days : Z) : str :=
  let '(y, m, d) := civil days in
  padded 4 y ++ lit "-" ++ padded 2 m ++ lit "-" ++ padded 2 d.

(** [d + timedelta(days=k)] *)
Definition plus_days (d k : Z) : Z := d + k.

End Date.

(** ** Data model *)

(** The Python values that reach the records: what [json.loads] can return,
    and the strings and lists the extractors build themselves. *)
Inductive pyval : Type :=
  | PNone
  | PBool (b : bool)
  | PInt (n : Z)
  | PFloat (f : PrimFloat.float)
  | PStr (text : str)
  | PList (items : list pyval)
  | PDict (entries : list (str * pyval)).

(** [@dataclass class Task]: the annotations are not enforced, so a field
    holds whatever value the constructor was given. *)
Record Task : Type := mkTask {
  description : pyval;
  assignee : pyval;
  due_date : pyval;
  priority : pyval;
  status : pyval
}.

(** [Task(description, assignee, due_date, priority)] with the default status. *)
Definition new_Task (d a due p : pyval) : Task :=
  mkTask d a due p (PStr (lit "Pending")).

(** [@dataclass class Meeting] *)
Record Meeting : Type := mkMeeting {
  id : str;
  title : str;
  date : str;
  duration : Z;
  attendees : list str;
  transcript : str;
  summary : str;
  tasks : list Task;
  action_items : list pyval;
  decisions : pyval
}.

(** ** Effects: exceptions, the clock and the notices sent to the page *)

Inductive exn : Type :=
  | JSONDecodeError
  | Exception_ (class message : str).

(** [str(e)] *)
Definition exn_str (e : exn) : str :=
  match e with
  | JSONDecodeError => lit "JSONDecodeError"
  | Exception_ _ m => m
  end.

Inductive result (A : Type) : Type :=
  | Ok (a : A)
  | Raised (e : exn).
Arguments Ok {A} a.
Arguments Raised {A} e.

Inductive notice : Type :=
  | st_error (text : str)
  | st_warning (text : str)
  | st_success (text : str).

(** What a call can change: how often the clock has been read, how many
    calls have gone into the Gemini library, and the notices shown so far
    (oldest first). *)
Record world : Type := mkWorld {
  clock_reads : nat;
  service_calls : nat;
  notices : list notice
}.

Definition M (A : Type) : Type := world -> result A * world.

Definition ret {A} (a : A) : M A := fun w => (Ok a, w).

Definition raise {A} (e : exn) : M A := fun w => (Raised e, w).

Definition bind {A B} (m : M A) (k : A -> M B) : M B :=
  fun w => match m w with
           | (Ok a, w') => k a w'
           | (Raised e, w') => (Raised e, w')
           end.

(** [try: body  except ...: handler]; a handler that answers [None] does not
    match the exception, which then propagates. *)
Definition try_except {A} (body : M A) (handler : exn -> option (M A)) : M A :=
  fun w => match body w with
           | (Ok a, w') => (Ok a, w')
           | (Raised e, w') =>
               match handler e with
               | Some h => h w'
               | None => (Raised e, w')
               end
           end.

Definition lift {A} (r : result A) : M A := fun w => (r, w).

(** A call into the library: [f n] is what the [n]-th call of the session
    does. *)
Definition call {A} (f : nat -> result A) : M A :=
  fun w => (f (service_calls w),
            mkWorld (clock_reads w) (S (service_calls w)) (notices w)).

Definition show (n : notice) : M unit :=
  fun w => (Ok tt,
            mkWorld (clock_reads w) (service_calls w) (notices w ++ [n])).

Notation "x <- m ;; k" := (bind m (fun x => k))
  (at level 61, m at next level, right associativity).
Notation "m ;;; k" := (bind m (fun _ => k))
  (at level 61, right associativity).

(** The value returned by a call that did not raise. *)
Definition returned {A} (r : result A * world) : option A :=
  match fst r with
  | Ok a => Some a
  | Raised _ => None
  end.

(** ** The run-time system

    [clock k] is the date that the [k]-th call of [datetime.now()] of the
    session observes.  [set_order] gives the order in which a [set] of
    strings is iterated, as a function of its elements in the order they
    were first added: CPython fixes it by the hash seed of the process. *)

Section Runtime.

Variable clock : nat -> Z.
Variable set_order : list str -> list str.

(** [datetime.now()] *)
Definition now : M Z :=
  fun w => (Ok (clock (clock_reads w)),
            mkWorld (S (clock_reads w)) (service_calls w) (notices w)).

(** [topics.add(x)]: the elements are kept in the order of first insertion. *)
Definition set_add (x : str) (topics : list str) : list str :=
  if existsb (eqb x) topics then topics else topics ++ [x].

(** *** Fallback functions (when the API is not available) *)

(** The body of the loop of [extract_summary_fallback]. *)
Definition summary_step (topics : list str) (line : str) : list str :=
  if contains (lit ":") line then
    let content := lower (strip (item (split1 colon line) 1)) in
    let topics :=
      if contains (lit "project") content || contains (lit "update") content
      then set_add (lit "Project Updates") topics else topics in
    let topics :=
      if contains (lit "deadline") content || contains (lit "timeline") content
      then set_add (lit "Timeline Discussion") topics else topics in
    let topics :=
      if contains (lit "budget") content || contains (lit "cost") content
      then set_add (lit "Budget Review") topics else topics in
    let topics :=
      if contains (lit "issue") content || contains (lit "problem") content
         || contains (lit "blocker") content
      then set_add (lit "Blockers & Issues") topics else topics in
    topics
  else topics.

Definition extract_summary_fallback (transcript : str) : str :=
  let lines := split newline (strip transcript) in
  let topics := fold_left summary_step lines [] in
  let summary :=
    lit "Meeting covered " ++ of_nat (List.length lines)
    ++ lit " discussion points" in
  match topics with
  | [] => summary
  | _ :: _ =>
      summary ++ lit " including: " ++ join (lit ", ") (set_order topics)
      ++ lit "."
  end.

Definition task_keywords : list str :=
  [lit "will"; lit "need to"; lit "should"; lit "action item"; lit "todo";
   lit "task"; lit "follow up"; lit "deadline"].

(** The [for att in attendees: ... break] loop; [assignee] is the value the
    variable holds when the loop is entered. *)
Fixpoint assignee_loop (line line_lower : str) (attendees : list str)
    (assignee : str) : str :=
  match attendees with
  | [] => assignee
  | att :: rest =>
      if contains (lower att) line_lower
         || (contains (lit ": ") line
             && contains (lower att) (lower (item (split colon line) 0)))
      then att
      else assignee_loop line line_lower rest assignee
  end.

Definition task_priority (line_lower : str) : str :=
  if contains (lit "urgent") line_lower || contains (lit "asap") line_lower
     || contains (lit "critical") line_lower
  then lit "High"
  else if contains (lit "when possible") line_lower
          || contains (lit "eventually") line_lower
  then lit "Low"
  else lit "Medium".

(** The due date: the clock is read once for the default and once more when
    the line names a nearer date. *)
Definition task_due (line_lower : str) : M str :=
  d <- now ;;
  let due := Date.strftime_ymd (Date.plus_days d 7) in
  if contains (lit "tomorrow") line_lower then
    d1 <- now ;; ret (Date.strftime_ymd (Date.plus_days d1 1))
  else if contains (lit "end of week") line_lower then
    d5 <- now ;; ret (Date.strftime_ymd (Date.plus_days d5 5))
  else ret due.

Definition task_desc (line : str) : str :=
  if contains (lit ":") line then strip (item (split1 colon line) 1)
  else strip line.

(** The [for line in lines] loop of [extract_tasks_fallback]. *)
Fixpoint tasks_loop (attendees : list str) (lines : list str)
    (tasks : list Task) : M (list Task) :=
  match lines with
  | [] => ret tasks
  | line :: rest =>
      let line_lower := lower line in
      if existsb (fun kw => contains kw line_lower) task_keywords then
        let assignee :=
          assignee_loop line line_lower attendees (lit "Unassigned") in
        let priority := task_priority line_lower in
        due <- task_due line_lower ;;
        let desc := task_desc line in
        tasks_loop attendees rest
          (tasks ++ [new_Task (PStr (firstn 100 desc)) (PStr assignee)
                       (PStr due) (PStr priority)])
      else tasks_loop attendees rest tasks
  end.

Definition extract_tasks_fallback (transcript : str) (attendees : list str)
    : M (list Task) :=
  let lines := split newline (strip transcript) in
  tasks_loop attendees lines [].

Definition decision_keywords : list str :=
  [lit "decided"; lit "agreed"; lit "approved"; lit "confirmed";
   lit "will go with"; lit "final decision"].

Definition decisions_step (decisions : list str) (line : str) : list str :=
  if existsb (fun kw => contains kw (lower line)) decision_keywords then
    let content :=
      if contains (lit ":") line then strip (item (split1 colon line) 1)
      else strip line in
    decisions ++ [content]
  else decisions.

Definition extract_decisions_fallback (transcript : str) : list str :=
  fold_left decisions_step (split newline (strip transcript)) [].

(** The three assignments of the handlers' [else] branch (no AI). *)
Definition process_fallback (transcript : str) (attendees : list str)
    : M (str * list Task * list str) :=
  let summary := extract_summary_fallback transcript in
  tasks <- extract_tasks_fallback transcript attendees ;;
  let decisions := extract_decisions_fallback transcript in
  ret (summary, tasks, decisions).

(** *** AI processing functions using Gemini

    The calls into [google.generativeai] and [json] are the run-time
    system's: [genai_configure] is [genai.configure(api_key=...)],
    [GenerativeModel] the constructor of the model handle, and
    [generate_content] stands for [model.generate_content(prompt)] followed
    by [response.text]; each returns or raises an exception derived from
    [Exception], and what it does may change from one call to the next, so
    each takes the number of the call.  [json_loads] answers [None] where [json.loads] raises
    [JSONDecodeError].  [py_str] is [str(v)] for a value that is not a
    string. *)

Variable genai_configure : nat -> str -> result unit.
Variable GenerativeModel : nat -> str -> result unit.
Variable generate_content : nat -> str -> result str.
Variable json_loads : str -> option pyval.
Variable py_str : pyval -> str.

Definition init_gemini (api_key : str) : M bool :=
  try_except
    (call (fun n => genai_configure n api_key) ;;; ret true)
    (fun e => Some (show (st_error (lit "Failed to initialize Gemini: "
                                     ++ exn_str e)) ;;;
                    ret false)).

Definition get_gemini_model : M unit :=
  call (fun n => GenerativeModel n (lit "gemini-2.0-flash")).

Definition summary_prompt (transcript : str) : str :=
  lit "Analyze this meeting transcript and provide a concise summary (2-3 sentences) covering the main topics discussed, key points, and overall meeting outcome.

Meeting Transcript:
" ++ transcript ++ lit "

Provide only the summary, no additional formatting or labels.".

Definition extract_summary_ai (transcript api_key : str) : M str :=
  try_except
    (init_gemini api_key ;;;
     get_gemini_model ;;;
     let prompt := summary_prompt transcript in
     response_text <- call (fun n => generate_content n prompt) ;;
     ret (strip response_text))
    (fun e => Some (ret (lit "Error generating summary: " ++ exn_str e))).

(** [re.sub(r'^```json\s*', '', text)] *)
Definition sub_leading_fence (text : str) : str :=
  if startswith (lit "```json") text then lstrip (skipn 7 text) else text.

(** [re.sub(r'\s*```$', '', text)]: [$] matches at the end of the text and
    also just before a newline that ends it. *)
Definition sub_trailing_fence (text : str) : str :=
  let r := rev text in
  if startswith (lit "```") r then rev (lstrip (skipn 3 r))
  else if startswith (newline :: lit "```") r
  then rev (lstrip (skipn 4 r)) ++ [newline]
  else text.

Definition type_name (v : pyval) : str :=
  match v with
  | PNone => lit "NoneType"
  | PBool _ => lit "bool"
  | PInt _ => lit "int"
  | PFloat _ => lit "float"
  | PStr _ => lit "str"
  | PList _ => lit "list"
  | PDict _ => lit "dict"
  end.

(** The elements a [for] loop over [v] visits. *)
Definition py_iter (v : pyval) : result (list pyval) :=
  match v with
  | PList items => Ok items
  | PDict entries => Ok (map (fun kv => PStr (fst kv)) entries)
  | PStr text => Ok (map (fun c => PStr [c]) text)
  | _ => Raised (Exception_ (lit "TypeError")
                   (lit "'" ++ type_name v ++ lit "' object is not iterable"))
  end.

Fixpoint dict_get (entries : list (str * pyval)) (key : str)
    (default : pyval) : pyval :=
  match entries with
  | [] => default
  | (k, v) :: rest => if eqb k key then v else dict_get rest key default
  end.

(** [t.get(key, default)] *)
Definition py_get (t : pyval) (key : str) (default : pyval) : result pyval :=
  match t with
  | PDict entries => Ok (dict_get entries key default)
  | _ => Raised (Exception_ (lit "AttributeError")
                   (lit "'" ++ type_name t
                    ++ lit "' object has no attribute 'get'"))
  end.

Definition dq : str := [ascii_of_nat 34].

Definition tasks_prompt (transcript attendees_str today : str) : str :=
  lit "Analyze this meeting transcript and extract all action items/tasks.

Meeting Transcript:
" ++ transcript ++ lit "

Attendees: " ++ attendees_str ++ lit "
Today's Date: " ++ today ++ lit "

Return a JSON array of tasks. Each task should have:
- " ++ dq ++ lit "description" ++ dq ++ lit ": clear task description
- " ++ dq ++ lit "assignee" ++ dq ++ lit ": person responsible (from attendees list, or "
  ++ dq ++ lit "Unassigned" ++ dq ++ lit ")
- " ++ dq ++ lit "due_date" ++ dq ++ lit ": in YYYY-MM-DD format (estimate based on context, default 7 days from today)
- " ++ dq ++ lit "priority" ++ dq ++ lit ": " ++ dq ++ lit "High" ++ dq
  ++ lit ", " ++ dq ++ lit "Medium" ++ dq ++ lit ", or " ++ dq ++ lit "Low"
  ++ dq ++ lit " based on urgency

Return ONLY valid JSON array, no markdown, no explanation. Example:
[{" ++ dq ++ lit "description" ++ dq ++ lit ": " ++ dq
  ++ lit "Complete report" ++ dq ++ lit ", " ++ dq ++ lit "assignee" ++ dq
  ++ lit ": " ++ dq ++ lit "Alice" ++ dq ++ lit ", " ++ dq ++ lit "due_date"
  ++ dq ++ lit ": " ++ dq ++ lit "2024-01-15" ++ dq ++ lit ", " ++ dq
  ++ lit "priority" ++ dq ++ lit ": " ++ dq ++ lit "High" ++ dq ++ lit "}]

If no tasks found, return: []".

(** The [for t in tasks_data] loop of [extract_tasks_ai]. *)
Fixpoint tasks_ai_loop (tasks_data : list pyval) (tasks : list Task)
    : M (list Task) :=
  match tasks_data with
  | [] => ret tasks
  | t :: rest =>
      d <- lift (py_get t (lit "description") (PStr [])) ;;
      a <- lift (py_get t (lit "assignee") (PStr (lit "Unassigned"))) ;;
      n <- now ;;
      due <- lift (py_get t (lit "due_date")
                     (PStr (Date.strftime_ymd (Date.plus_days n 7)))) ;;
      p <- lift (py_get t (lit "priority") (PStr (lit "Medium"))) ;;
      tasks_ai_loop rest (tasks ++ [new_Task d a due p])
  end.

Definition extract_tasks_ai (transcript : str) (attendees : list str)
    (api_key : str) : M (list Task) :=
  try_except
    (init_gemini api_key ;;;
     get_gemini_model ;;;
     let attendees_str := join (lit ", ") attendees in
     n <- now ;;
     let today := Date.strftime_ymd n in
     let prompt := tasks_prompt transcript attendees_str today in
     response <- call (fun n => generate_content n prompt) ;;
     let response_text := strip response in
     let response_text := sub_leading_fence response_text in
     let response_text := sub_trailing_fence response_text in
     match json_loads response_text with
     | None => raise JSONDecodeError
     | Some tasks_data =>
         elements <- lift (py_iter tasks_data) ;;
         tasks_ai_loop elements []
     end)
    (fun e =>
       match e with
       | JSONDecodeError => Some (ret [])
       | Exception_ _ _ =>
           Some (show (st_warning (lit "Task extraction error: "
                                    ++ exn_str e)) ;;;
                 ret [])
       end).

Definition decisions_prompt (transcript : str) : str :=
  lit "Analyze this meeting transcript and extract all key decisions that were made.

Meeting Transcript:
" ++ transcript ++ lit "

Return a JSON array of decision strings. Each decision should be a clear, concise statement.
Return ONLY valid JSON array, no markdown, no explanation. Example:
[" ++ dq ++ lit "Approved Q4 budget" ++ dq ++ lit ", " ++ dq
  ++ lit "Decided to use new vendor" ++ dq ++ lit "]

If no decisions found, return: []".

Definition extract_decisions_ai (transcript api_key : str) : M pyval :=
  try_except
    (init_gemini api_key ;;;
     get_gemini_model ;;;
     let prompt := decisions_prompt transcript in
     response <- call (fun n => generate_content n prompt) ;;
     let response_text := strip response in
     let response_text := sub_leading_fence response_text in
     let response_text := sub_trailing_fence response_text in
     match json_loads response_text with
     | None => raise JSONDecodeError
     | Some decisions => ret decisions
     end)
    (fun _ => Some (ret (PList []))).

(** [f"{v}"] *)
Definition format_value (v : pyval) : str :=
  match v with
  | PStr text => text
  | _ => py_str v
  end.

(** [bool(v)] *)
Definition truthy (v : pyval) : bool :=
  match v with
  | PNone => false
  | PBool b => b
  | PInt n => negb (n =? 0)%Z
  | PFloat f => negb (PrimFloat.eqb f PrimFloat.zero)
  | PStr text => negb (eqb text [])
  | PList items => negb (Nat.eqb (List.length items) 0)
  | PDict entries => negb (Nat.eqb (List.length entries) 0)
  end.

Definition email_task_line (t : Task) : str :=
  lit "- " ++ format_value (description t) ++ lit " (Assignee: "
  ++ format_value (assignee t) ++ lit ", Due: " ++ format_value (due_date t)
  ++ lit ", Priority: " ++ format_value (priority t) ++ lit ")"
  ++ [newline].

Definition email_prompt (meeting : Meeting) (decisions_str tasks_str : str)
    : str :=
  lit "Generate a professional follow-up email for this meeting:

Meeting Title: " ++ title meeting ++ lit "
Date: " ++ date meeting ++ lit "
Attendees: " ++ join (lit ", ") (attendees meeting) ++ lit "
Summary: " ++ summary meeting ++ lit "
Decisions: " ++ decisions_str ++ lit "
Action Items: "
  ++ (match tasks_str with [] => lit "None" | _ :: _ => tasks_str end)
  ++ lit "

Create a well-formatted, professional email that:
1. Thanks attendees
2. Summarizes key discussion points
3. Lists decisions made
4. Lists action items with assignees and due dates
5. Ends with a professional closing

Make it concise but comprehensive.".

Definition generate_followup_email_ai (meeting : Meeting) (api_key : str)
    : M str :=
  try_except
    (init_gemini api_key ;;;
     get_gemini_model ;;;
     let tasks_str := List.concat (map email_task_line (tasks meeting)) in
     decisions_str <-
       (if truthy (decisions meeting) then
          ds <- lift (py_iter (decisions meeting)) ;;
          ret (join [newline] (map (fun d => lit "- " ++ format_value d) ds))
        else ret (lit "None")) ;;
     let prompt := email_prompt meeting decisions_str tasks_str in
     response <- call (fun n => generate_content n prompt) ;;
     ret (strip response))
    (fun e => Some (ret (lit "Error generating email: " ++ exn_str e))).

(** *** The session and the save handler *)

(** [st.session_state] *)
Record session : Type := mkSession {
  meetings : list Meeting;
  current_meeting : option Meeting;
  is_recording : bool;
  api_key : str
}.

(** [meeting.transcript = text] *)
Definition set_transcript (meeting : Meeting) (text : str) : Meeting :=
  mkMeeting (id meeting) (title meeting) (date meeting) (duration meeting)
    (attendees meeting) text (summary meeting) (tasks meeting)
    (action_items meeting) (decisions meeting).

(** [meeting.summary = sm; meeting.tasks = ts; meeting.decisions = ds] *)
Definition set_results (meeting : Meeting) (sm : str) (ts : list Task)
    (ds : pyval) : Meeting :=
  mkMeeting (id meeting) (title meeting) (date meeting) (duration meeting)
    (attendees meeting) (transcript meeting) sm ts (action_items meeting) ds.

(** The assignments under [if use_ai and st.session_state.api_key: ... else:
    ...] of both handlers. *)
Definition process_meeting (use_ai : bool) (key text : str)
    (names : list str) (meeting : Meeting) : M Meeting :=
  if use_ai && truthy (PStr key) then
    sm <- extract_summary_ai text key ;;
    ts <- extract_tasks_ai text names key ;;
    ds <- extract_decisions_ai text key ;;
    ret (set_results meeting sm ts ds)
  else
    let sm := extract_summary_fallback text in
    ts <- extract_tasks_fallback text names ;;
    let ds := extract_decisions_fallback text in
    ret (set_results meeting sm ts (PList (map PStr ds))).

(** The last three statements of the save handler: drop every saved meeting
    with the id of [meeting], then append [meeting]. *)
Definition save_meeting (meeting : Meeting) (saved : list Meeting)
    : list Meeting :=
  let existing :=
    filter (fun m => negb (eqb (id m) (id meeting))) saved in
  existing ++ [meeting].

(** [if save_btn and st.session_state.current_meeting: ...]; the banner the
    page shows afterwards is not part of the model. *)
Definition on_save (use_ai : bool) (text : str) (names : list str)
    (st : session) : M session :=
  match current_meeting st with
  | None => ret st
  | Some meeting =>
      let meeting := set_transcript meeting text in
      meeting <-
        (if negb (truthy (PStr (summary meeting)))
         then process_meeting use_ai (api_key st) text names meeting
         else ret meeting) ;;
      ret (mkSession (save_meeting meeting (meetings st)) (Some meeting)
             (is_recording st) (api_key st))
  end.

(** *** The follow-up email without AI

    The headings of the template carry pictographs, which lie outside the
    character range of [str]; they are taken as given strings. *)

Variable icon_summary : str.
Variable icon_decisions : str.
Variable icon_actions : str.
Variable icon_bullet : str.
Variable icon_attendees : str.
Variable icon_agent : str.

(** [for i, dec in enumerate(decs, i): email += f"  {i}. {dec}\n"] *)
Fixpoint numbered_lines (i : nat) (decs : list pyval) : str :=
  match decs with
  | [] => []
  | dec :: rest =>
      lit "  " ++ of_nat i ++ lit ". " ++ format_value dec ++ [newline]
      ++ numbered_lines (S i) rest
  end.

(** The two lines the template gives a Task. *)
Definition email_fallback_task (task : Task) : str :=
  lit "  " ++ icon_bullet ++ lit " " ++ format_value (description task)
  ++ [newline]
  ++ lit "    Assignee: " ++ format_value (assignee task) ++ lit " | Due: "
  ++ format_value (due_date task) ++ lit " | Priority: "
  ++ format_value (priority task) ++ [newline].

Definition email_fallback_head (meeting : Meeting) : str :=
  lit "Subject: Meeting Summary - " ++ title meeting ++ lit " ("
  ++ date meeting ++ lit ")

Hi Team,

Thank you for attending today's meeting. Here's a summary of what we discussed:

" ++ icon_summary ++ lit " SUMMARY
" ++ summary meeting ++ lit "

".

Definition email_fallback_foot (meeting : Meeting) : str :=
  icon_attendees ++ lit " ATTENDEES
" ++ join (lit ", ") (attendees meeting) ++ lit "

Please let me know if I missed anything or if you have any questions.

Best regards,
Meeting Agent " ++ icon_agent ++ lit "
".

(** [generate_followup_email_fallback]: no [try] surrounds the loop over the
    decisions. *)
Definition generate_followup_email_fallback (meeting : Meeting) : M str :=
  let email := email_fallback_head meeting in
  email <-
    (if truthy (decisions meeting) then
       decs <- lift (py_iter (decisions meeting)) ;;
       ret (email ++ icon_decisions ++ lit " KEY DECISIONS" ++ [newline]
            ++ numbered_lines 1 decs ++ [newline])
     else ret email) ;;
  let email :=
    match tasks meeting with
    | [] => email
    | _ :: _ =>
        email ++ icon_actions ++ lit " ACTION ITEMS" ++ [newline]
        ++ List.concat (map email_fallback_task (tasks meeting))
        ++ [newline]
    end in
  ret (email ++ email_fallback_foot meeting).

(** The follow-up tab: the email is made for an open meeting with a summary,
    by the service when AI is in use and by the template otherwise. *)
Definition followup_tab (use_ai : bool) (st : session) : M (option str) :=
  match current_meeting st with
  | None => ret None
  | Some meeting =>
      if truthy (PStr (summary meeting)) then
        if use_ai && truthy (PStr (api_key st)) then
          email <- generate_followup_email_ai meeting (api_key st) ;;
          ret (Some email)
        else
          email <- generate_followup_email_fallback meeting ;;
          ret (Some email)
      else ret None
  end.

(** *** The Save button, banner included

    [on_save] above leaves out the last statement of the handler,
    [st.success(...)], whose text starts with a pictograph; it is taken as a
    given string here. *)

Variable icon_saved : str.

Definition save_pressed (use_ai : bool) (text : str) (names : list str)
    (st : session) : M session :=
  match current_meeting st with
  | None => ret st
  | Some _ =>
      st' <- on_save use_ai text names st ;;
      show (st_success (icon_saved ++ lit " Meeting saved!")) ;;;
      ret st'
  end.

End Runtime.

(** ** A decoder to run the AI path with

    [json_loads_basic] reads the JSON texts made of [null], [true], [false],
    integers, strings (with the escapes of one character and [\u00XX]),
    arrays and objects, and answers on them as [json.loads] does; a later
    binding of a key replaces an earlier one.  Every other text, well-formed
    or not, is answered with [None].  It instantiates [json_loads] where a
    statement is evaluated. *)

Module JsonBasic.

Fixpoint skip_ws (text : str) : str :=
  match text with
  | c :: r =>
      let n := nat_of_ascii c in
      if (n =? 32) || (n =? 9) || (n =? 10) || (n =? 13) then skip_ws r
      else text
  | [] => []
  end.

Definition is_digit (c : ascii) : bool :=
  let n := nat_of_ascii c in (48 <=? n) && (n <=? 57).

Definition hex_digit (c : ascii) : option nat :=
  let n := nat_of_ascii c in
  if (48 <=? n) && (n <=? 57) then Some (n - 48)
  else if (97 <=? n) && (n <=? 102) then Some (n - 87)
  else if (65 <=? n) && (n <=? 70) then Some (n - 55)
  else None.

Fixpoint digits (text : str) (acc : Z) : Z * str :=
  match text with
  | c :: r =>
      if is_digit c
      then digits r (10 * acc + Z.of_nat (nat_of_ascii c - 48))%Z
      else (acc, text)
  | [] => (acc, [])
  end.

(** An integer literal: no leading zero, and nothing of a fraction or an
    exponent behind it. *)
Definition number (text : str) : option (Z * str) :=
  let '(neg, body) :=
    match text with
    | "-"%char :: r => (true, r)
    | _ => (false, text)
    end in
  match body with
  | c :: r =>
      if is_digit c then
        let '(n, rest) :=
          if Ascii.eqb c "0"%char then (0%Z, r) else digits body 0%Z in
        match rest with
        | d :: _ =>
            if is_digit d || Ascii.eqb d "."%char || Ascii.eqb d "e"%char
               || Ascii.eqb d "E"%char
            then None
            else Some (if neg then (- n)%Z else n, rest)
        | [] => Some (if neg then (- n)%Z else n, rest)
        end
      else None
  | [] => None
  end.

Definition quote : ascii := ascii_of_nat 34.
Definition backslash : ascii := ascii_of_nat 92.

(** The character an escape of one letter stands for. *)
Definition escape (e : ascii) : option ascii :=
  if Ascii.eqb e quote || Ascii.eqb e backslash || Ascii.eqb e "/"%char
  then Some e
  else match e with
       | "b"%char => Some (ascii_of_nat 8)
       | "f"%char => Some (ascii_of_nat 12)
       | "n"%char => Some (ascii_of_nat 10)
       | "r"%char => Some (ascii_of_nat 13)
       | "t"%char => Some (ascii_of_nat 9)
       | _ => None
       end.

(** The characters of a string literal after its opening quote. *)
Fixpoint chars (text : str) (acc : str) : option (str * str) :=
  match text with
  | [] => None
  | c :: r =>
      if Ascii.eqb c quote then Some (rev acc, r)
      else if Ascii.eqb c backslash then
        match r with
        | "u"%char :: "0"%char :: "0"%char :: h :: l :: r' =>
            match hex_digit h, hex_digit l with
            | Some a, Some b => chars r' (ascii_of_nat (16 * a + b) :: acc)
            | _, _ => None
            end
        | e :: r' =>
            match escape e with
            | Some x => chars r' (x :: acc)
            | None => None
            end
        | [] => None
        end
      else if nat_of_ascii c <? 32 then None
      else chars r (c :: acc)
  end.

Fixpoint dict_set (entries : list (str * pyval)) (key : str) (v : pyval)
    : list (str * pyval) :=
  match entries with
  | [] => [(key, v)]
  | (k, x) :: rest =>
      if eqb k key then (k, v) :: rest else (k, x) :: dict_set rest key v
  end.

Fixpoint value (fuel : nat) (text : str) : option (pyval * str) :=
  match fuel with
  | O => None
  | S fuel =>
      match skip_ws text with
      | "["%char :: r =>
          match skip_ws r with
          | "]"%char :: r' => Some (PList [], r')
          | _ => items fuel r []
          end
      | "{"%char :: r =>
          match skip_ws r with
          | "}"%char :: r' => Some (PDict [], r')
          | _ => members fuel r []
          end
      | t =>
          if startswith [quote] t then
            match chars (skipn 1 t) [] with
            | Some (text', r') => Some (PStr text', r')
            | None => None
            end
          else if startswith (lit "null") t then Some (PNone, skipn 4 t)
          else if startswith (lit "true") t then Some (PBool true, skipn 4 t)
          else if startswith (lit "false") t
          then Some (PBool false, skipn 5 t)
          else match number t with
               | Some (n, r) => Some (PInt n, r)
               | None => None
               end
      end
  end
with items (fuel : nat) (text : str) (acc : list pyval)
    : option (pyval * str) :=
  match fuel with
  | O => None
  | S fuel =>
      match value fuel text with
      | Some (v, r) =>
          match skip_ws r with
          | ","%char :: r' => items fuel r' (v :: acc)
          | "]"%char :: r' => Some (PList (rev (v :: acc)), r')
          | _ => None
          end
      | None => None
      end
  end
with members (fuel : nat) (text : str) (acc : list (str * pyval))
    : option (pyval * str) :=
  match fuel with
  | O => None
  | S fuel =>
      let t := skip_ws text in
      if startswith [quote] t then
        match chars (skipn 1 t) [] with
        | Some (key, r1) =>
            match skip_ws r1 with
            | ":"%char :: r2 =>
                match value fuel r2 with
                | Some (v, r3) =>
                    match skip_ws r3 with
                    | ","%char :: r4 => members fuel r4 (dict_set acc key v)
                    | "}"%char :: r4 => Some (PDict (dict_set acc key v), r4)
                    | _ => None
                    end
                | None => None
                end
            | _ => None
            end
        | None => None
        end
      else None
  end.

Definition json_loads_basic (text : str) : option pyval :=
  match value (2 * List.length text + 2) text with
  | Some (v, rest) =>
      match skip_ws rest with
      | [] => Some v
      | _ :: _ => None
      end
  | None => None
  end.

End JsonBasic.

(** ** The assignee test beyond Latin-1

    [str.lower()] does not work character by character everywhere: a Greek
    capital sigma becomes a final sigma or a medial one, depending on the
    letters around it.  This module has the strings as lists of code points
    and [lower] as CPython computes it on the code points below 256 and the
    Greek letters U+0391 to U+03C9, and over them the test that picks the
    assignee. *)

Module Unicode.

Definition ustr := list N.

Definition of_lit (x : string) : ustr :=
  map (fun c => N.of_nat (nat_of_ascii c)) (list_ascii_of_string x).
Arguments of_lit x%_string.

Definition capital_sigma : N := 0x3A3.
Definition small_sigma : N := 0x3C3.
Definition final_sigma : N := 0x3C2.
Definition colon : N := 0x3A.

Definition between (a b c : N) : bool := ((a <=? c) && (c <=? b))%N.

(** The cased characters of the range. *)
Definition cased (c : N) : bool :=
  between 0x41 0x5A c || between 0x61 0x7A c || (c =? 0xAA)%N
  || (c =? 0xB5)%N || (c =? 0xBA)%N || between 0xC0 0xD6 c
  || between 0xD8 0xF6 c || between 0xF8 0xFF c || between 0x391 0x3A1 c
  || between 0x3A3 0x3C9 c.

(** The case-ignorable characters of the range: apostrophe, full stop,
    colon, the spacing accents, the soft hyphen and the middle dot. *)
Definition case_ignorable (c : N) : bool :=
  existsb (N.eqb c)
    [0x27; 0x2E; 0x3A; 0x5E; 0x60; 0xA8; 0xAD; 0xAF; 0xB4; 0xB7; 0xB8]%N.

Definition lower_char (c : N) : N :=
  if between 0x41 0x5A c || between 0xC0 0xD6 c || between 0xD8 0xDE c
     || between 0x391 0x3A1 c || between 0x3A3 0x3AB c
  then (c + 32)%N else c.

(** The first character that is not case-ignorable. *)
Fixpoint first_solid (text : ustr) : option N :=
  match text with
  | [] => None
  | c :: r => if case_ignorable c then first_solid r else Some c
  end.

(** A capital sigma is final when a cased letter comes before it and none
    comes after it, case-ignorable characters skipped; [before] holds the
    characters in front of it, the nearest first. *)
Definition sigma_is_final (before after : ustr) : bool :=
  match first_solid before with
  | Some b =>
      cased b
      && match first_solid after with
         | Some a => negb (cased a)
         | None => true
         end
  | None => false
  end.

Fixpoint lower_from (before text : ustr) : ustr :=
  match text with
  | [] => []
  | c :: r =>
      (if (c =? capital_sigma)%N
       then if sigma_is_final before r then final_sigma else small_sigma
       else lower_char c)
      :: lower_from (c :: before) r
  end.

(** [s.lower()] *)
Definition lower (text : ustr) : ustr := lower_from [] text.

Fixpoint startswith (p text : ustr) : bool :=
  match p, text with
  | [], _ => true
  | a :: p', b :: text' => (a =? b)%N && startswith p' text'
  | _ :: _, [] => false
  end.

(** [sub in s] *)
Fixpoint contains (sub text : ustr) : bool :=
  startswith sub text ||
  match text with
  | [] => false
  | _ :: r => contains sub r
  end.

(** [s.split(':')[0]]: the text before the first colon, the whole text when
    there is none. *)
Fixpoint before_colon (text : ustr) : ustr :=
  match text with
  | [] => []
  | c :: r => if (c =? colon)%N then [] else c :: before_colon r
  end.


(** The [for att in attendees: ... break] loop of [extract_tasks_fallback]. *)
Fixpoint assignee_loop (line line_lower : ustr) (attendees : list ustr)
    (assignee : ustr) : ustr :=
  match attendees with
  | [] => assignee
  | att :: rest =>
      if contains (lower att) line_lower
         || (contains (of_lit ": ") line
             && contains (lower att) (lower (before_colon line)))
      then att
      else assignee_loop line line_lower rest assignee
  end.


End Unicode.

(** ** Vocabulary of the specification *)

(** The lines the fallback extractors iterate over, and the newline-delimited
    segments of the transcript as it was given. *)
Definition transcript_lines (transcript : str) : list str :=
  split newline (strip transcript).

Definition raw_lines (transcript : str) : list str :=
  split newline transcript.

(** The lower-cased text of [line] contains at least one of [phrases]. *)
Definition mentions (phrases : list str) (line : str) : bool :=
  existsb (fun phrase => contains phrase (lower line)) phrases.

Definition has_colon (line : str) : bool := contains [colon] line.

(** The text before and after the first colon of a line that has one. *)
Definition before_first_colon (line : str) : str :=
  item (split1 colon line) 0.

Definition after_first_colon (line : str) : str :=
  item (split1 colon line) 1.

(** The text after the first colon if present, else the whole line. *)
Definition utterance (line : str) : str :=
  if has_colon line then after_first_colon line else line.

Definition task_triggers : list str :=
  [lit "will"; lit "need to"; lit "should"; lit "action item"; lit "todo";
   lit "task"; lit "follow up"; lit "deadline"].

Definition decision_triggers : list str :=
  [lit "decided"; lit "agreed"; lit "approved"; lit "confirmed";
   lit "will go with"; lit "final decision"].

(** The clock shows the same date at every reading. *)
Definition fixed_clock (clock : nat -> Z) (today : Z) : Prop :=
  forall k, clock k = today.

(** The assignee as the specification words it: the first attendee whose
    lower-cased name appears in the lower-cased line, or in the lower-cased
    speaker label before its first colon. *)
Definition name_appears (line att : str) : bool :=
  contains (lower att) (lower line)
  || (has_colon line
      && contains (lower att) (lower (before_first_colon line))).

Definition assignee_rule (attendees : list str) (line : str) : str :=
  match find (name_appears line) attendees with
  | Some att => att
  | None => lit "Unassigned"
  end.

Definition priority_rule (line : str) : str :=
  if mentions [lit "urgent"; lit "asap"; lit "critical"] line then lit "High"
  else if mentions [lit "when possible"; lit "eventually"] line then lit "Low"
  else lit "Medium".

Definition due_days (line : str) : Z :=
  if mentions [lit "tomorrow"] line then 1%Z
  else if mentions [lit "end of week"] line then 5%Z
  else 7%Z.

(** The Task the fallback loop appends for [line], its due date counted from
    some reading of the clock. *)
Definition fallback_task (clock : nat -> Z) (attendees : list str)
    (line : str) (t : Task) : Prop :=
  exists k,
    t = new_Task (PStr (firstn 100 (strip (utterance line))))
          (PStr (assignee_loop line (lower line) attendees
                   (lit "Unassigned")))
          (PStr (Date.strftime_ymd (clock k + due_days line)))
          (PStr (task_priority (lower line))).

(** The four topics of the heuristic summary with their keywords. *)
Definition topic_table : list (str * list str) :=
  [(lit "Project Updates", [lit "project"; lit "update"]);
   (lit "Timeline Discussion", [lit "deadline"; lit "timeline"]);
   (lit "Budget Review", [lit "budget"; lit "cost"]);
   (lit "Blockers & Issues", [lit "issue"; lit "problem"; lit "blocker"])].

(** A line contributes a topic when it has a colon and the text after its
    first colon, lower-cased, contains a keyword of the topic. *)
Definition line_hits (topic : str * list str) (line : str) : bool :=
  has_colon line && mentions (snd topic) (after_first_colon line).

(** The labels of the topics some line contributes, each once. *)
Definition matched_labels (lines : list str) : list str :=
  map fst (filter (fun topic => existsb (line_hits topic) lines) topic_table).

(** [if b: topics.add(label)] *)
Definition cond_add (b : bool) (label : str) (topics : list str) : list str :=
  if b then set_add label topics else topics.

(** The Task of [line] when every reading of the clock shows [today]. *)
Definition task_on (today : Z) (attendees : list str) (line : str) : Task :=
  new_Task (PStr (firstn 100 (strip (utterance line))))
    (PStr (assignee_rule attendees line))
    (PStr (Date.strftime_ymd (today + due_days line)))
    (PStr (priority_rule line)).

(** The text [extract_tasks_ai] hands to the decoder: the response stripped
    and freed of its fences. *)
Definition unfenced (response : str) : str :=
  sub_trailing_fence (sub_leading_fence (strip response)).

(** The warning-level notices shown so far. *)
Definition warnings (w : world) : list notice :=
  filter (fun n => match n with st_warning _ => true | _ => false end)
    (notices w).

(** The Task [extract_tasks_ai] builds from a decoded object. *)
Definition ai_task (due_default : str) (entries : list (str * pyval)) : Task :=
  new_Task (dict_get entries (lit "description") (PStr []))
    (dict_get entries (lit "assignee") (PStr (lit "Unassigned")))
    (dict_get entries (lit "due_date") (PStr due_default))
    (dict_get entries (lit "priority") (PStr (lit "Medium"))).

(** The text-generation service fails with [e]: the model handle cannot be
    made, or every request raises. *)
Definition service_fails (GenerativeModel : nat -> str -> result unit)
    (generate_content : nat -> str -> result str) (e : exn) : Prop :=
  (forall n, GenerativeModel n (lit "gemini-2.0-flash") = Raised e)
  \/ ((forall n, GenerativeModel n (lit "gemini-2.0-flash") = Ok tt)
      /\ forall n prompt, generate_content n prompt = Raised e).

(** The service answers every request with [response]. *)
Definition service_answers (GenerativeModel : nat -> str -> result unit)
    (generate_content : nat -> str -> result str) (response : str) : Prop :=
  (forall n, GenerativeModel n (lit "gemini-2.0-flash") = Ok tt)
  /\ forall n prompt, generate_content n prompt = Ok response.

Definition backtick : ascii := ascii_of_nat 96.

(** A text that is not empty and has neither white space nor a backtick at
    either end, as a JSON array or a sentence has. *)
Definition fence_free (body : str) : bool :=
  match body with
  | [] => false
  | a :: _ =>
      let z := last body a in
      negb (isspace a) && negb (Ascii.eqb a backtick)
      && negb (isspace z) && negb (Ascii.eqb z backtick)
  end.

(** [body] behind an opening fence followed by the white space [ws1], if
    [lead], and before the white space [ws2] and a closing fence, if
    [trail]. *)
Definition fenced (lead trail : bool) (ws1 ws2 body : str) : str :=
  (if lead then lit "```json" ++ ws1 else [])
  ++ body ++ (if trail then ws2 ++ lit "```" else []).

(** The record has the id [i]. *)
Definition has_id (i : str) (m : Meeting) : bool := eqb (id m) i.

(** Of a sequence of saved meetings, those that no later one of the same id
    has replaced, in the order they were saved. *)
Fixpoint latest (saves : list Meeting) : list Meeting :=
  match saves with
  | [] => []
  | m :: rest =>
      if existsb (has_id (id m)) rest then latest rest
      else m :: latest rest
  end.

(** A [for] loop can run over the value. *)
Definition iterable (v : pyval) : bool :=
  match py_iter v with
  | Ok _ => true
  | Raised _ => false
  end.

(** The text has no white space at either end. *)
Definition trimmed (text : str) : Prop := strip text = text.

(** The value is a JSON object. *)
Definition is_object (v : pyval) : bool :=
  match v with
  | PDict _ => true
  | _ => false
  end.

(** The text is empty or starts with a character that is no white space. *)
Definition starts_solid (text : str) : bool :=
  match text with
  | [] => true
  | c :: _ => negb (isspace c)
  end.



(** The string a field holds, when it holds one. *)
Definition text_of (v : pyval) : option str :=
  match v with
  | PStr text => Some text
  | _ => None
  end.

(** A string made of white space only. *)
Definition blank (text : str) : bool := forallb isspace text.

(** A phrase that neither starts nor ends with white space. *)
Definition solid (phrase : str) : bool :=
  match phrase with
  | [] => false
  | a :: _ => negb (isspace a) && negb (isspace (last phrase a))
  end.

(** ** Facts about the string operations *)

Lemma isspace_lower_char (c : ascii) : isspace (lower_char c) = isspace c.
Proof. destruct c as [[] [] [] [] [] [] [] []]; reflexivity. Qed.

Lemma lower_app (a b : str) : lower (a ++ b) = lower a ++ lower b.
Proof. apply map_app. Qed.

Lemma blank_app (a b : str) : blank (a ++ b) = blank a && blank b.
Proof. apply forallb_app. Qed.

Lemma blank_lower (a : str) : blank (lower a) = blank a.
Proof.
  induction a as [|c a IH]; simpl; [reflexivity|].
  now rewrite isspace_lower_char, IH.
Qed.

Lemma blank_rev (a : str) : blank (rev a) = blank a.
Proof.
  induction a as [|c a IH]; simpl; [reflexivity|].
  rewrite blank_app, IH. simpl. rewrite andb_true_r. apply andb_comm.
Qed.

Lemma startswith_app (p x y : str) :
  startswith p x = true -> startswith p (x ++ y) = true.
Proof.
  revert x; induction p as [|a p IH]; intros [|b x]; simpl; try easy.
  intros H. apply andb_true_iff in H as [-> H]. now apply IH.
Qed.

Lemma contains_app_l (p x y : str) :
  contains p x = true -> contains p (x ++ y) = true.
Proof.
  induction x as [|b x IH]; simpl; intros H.
  - rewrite orb_false_r in H. destruct p; [|discriminate].
    destruct y; reflexivity.
  - apply orb_true_iff in H as [H|H].
    + change (b :: x ++ y) with ((b :: x) ++ y).
      now rewrite (startswith_app _ _ _ H).
    + rewrite (IH H). apply orb_true_r.
Qed.

Lemma contains_app_r (p x y : str) :
  contains p y = true -> contains p (x ++ y) = true.
Proof.
  induction x as [|b x IH]; simpl; intros H; [exact H|].
  rewrite (IH H). apply orb_true_r.
Qed.

(** A match of a phrase inside white space would make the phrase blank. *)
Lemma startswith_blank (p u : str) :
  blank u = true -> startswith p u = true -> blank p = true.
Proof.
  revert u; induction p as [|a p IH]; intros [|b u]; simpl; try easy.
  intros Hu H. apply andb_true_iff in Hu as [Hb Hu].
  apply andb_true_iff in H as [Hab H]. apply Ascii.eqb_eq in Hab. subst b.
  rewrite Hb. simpl. now apply (IH u).
Qed.

Lemma solid_not_blank (p : str) : solid p = true -> blank p = false.
Proof.
  destruct p as [|a p]; [discriminate|]. unfold solid. intros H.
  apply andb_true_iff in H as [H _]. simpl.
  now destruct (isspace a).
Qed.

Lemma solid_inv (p : str) :
  solid p = true ->
  exists a q c, p = a :: q /\ isspace a = false /\
                p = removelast p ++ [c] /\ isspace c = false.
Proof.
  destruct p as [|a q]; [discriminate|]. unfold solid. intros H.
  apply andb_true_iff in H as [Ha Hc].
  apply negb_true_iff in Ha. apply negb_true_iff in Hc.
  exists a, q, (last (a :: q) a). repeat split; trivial.
  now apply app_removelast_last.
Qed.

Lemma contains_blank (p u : str) :
  blank u = true -> contains p u = true -> blank p = true.
Proof.
  induction u as [|b u IH]; simpl; intros Hu H.
  - rewrite orb_false_r in H. now destruct p.
  - apply andb_true_iff in Hu as [Hb Hu].
    apply orb_true_iff in H as [H|H]; [|now apply IH].
    apply (startswith_blank p (b :: u)); [|exact H].
    simpl. now rewrite Hb.
Qed.

Lemma startswith_pad (q : str) (c : ascii) (l u : str) :
  isspace c = false -> blank u = true ->
  startswith (q ++ [c]) (l ++ u) = startswith (q ++ [c]) l.
Proof.
  intros Hc Hu. revert l. induction q as [|a q IH]; intros [|b l]; simpl.
  - destruct u as [|b u]; [reflexivity|]. simpl in Hu.
    apply andb_true_iff in Hu as [Hb _].
    destruct (Ascii.eqb c b) eqn:E; [|reflexivity].
    apply Ascii.eqb_eq in E. congruence.
  - reflexivity.
  - destruct (startswith (a :: q ++ [c]) u) eqn:E; [|exact E].
    apply (startswith_blank _ _ Hu) in E. simpl in E.
    apply andb_true_iff in E as [_ E]. rewrite blank_app in E.
    apply andb_true_iff in E as [_ E]. simpl in E. now rewrite Hc in E.
  - now rewrite IH.
Qed.

Lemma contains_pad_right (p l u : str) :
  solid p = true -> blank u = true -> contains p (l ++ u) = contains p l.
Proof.
  intros Hp Hu. destruct (solid_inv p Hp) as (a & q & c & Hq & Ha & Hl & Hc).
  induction l as [|b l IH].
  - simpl. destruct (contains p u) eqn:E.
    + apply (contains_blank _ _ Hu) in E.
      now rewrite (solid_not_blank p Hp) in E.
    + subst p. reflexivity.
  - change ((b :: l) ++ u) with (b :: l ++ u).
    cbn [contains]. rewrite IH. f_equal.
    change (b :: l ++ u) with ((b :: l) ++ u).
    rewrite Hl. now apply startswith_pad.
Qed.

Lemma contains_pad_left (p : str) (c : ascii) (l : str) :
  solid p = true -> isspace c = true -> contains p (c :: l) = contains p l.
Proof.
  intros Hp Hc. destruct (solid_inv p Hp) as (a & q & _ & Hq & Ha & _).
  subst p. cbn [contains startswith].
  destruct (Ascii.eqb a c) eqn:E; [|reflexivity].
  apply Ascii.eqb_eq in E. congruence.
Qed.

Lemma mentions_pad_left (phrases : list str) (c : ascii) (l : str) :
  forallb solid phrases = true -> isspace c = true ->
  mentions phrases (c :: l) = mentions phrases l.
Proof.
  intros Hs Hc. unfold mentions. induction phrases as [|p ps IH];
    [reflexivity|].
  simpl in Hs. apply andb_true_iff in Hs as [Hp Hs]. cbn [existsb].
  rewrite (IH Hs). f_equal. cbn [lower map].
  apply contains_pad_left; [exact Hp|]. now rewrite isspace_lower_char.
Qed.

Lemma mentions_pad_right (phrases : list str) (l u : str) :
  forallb solid phrases = true -> blank u = true ->
  mentions phrases (l ++ u) = mentions phrases l.
Proof.
  intros Hs Hu. unfold mentions. induction phrases as [|p ps IH];
    [reflexivity|].
  simpl in Hs. apply andb_true_iff in Hs as [Hp Hs]. cbn [existsb].
  rewrite (IH Hs). f_equal. rewrite lower_app.
  apply contains_pad_right; [exact Hp|]. now rewrite blank_lower.
Qed.

Lemma mentions_blank (phrases : list str) (u : str) :
  forallb solid phrases = true -> blank u = true ->
  mentions phrases u = false.
Proof.
  intros Hs Hu. change u with ([] ++ u).
  rewrite (mentions_pad_right phrases [] u Hs Hu).
  unfold mentions. induction phrases as [|p ps IH]; [reflexivity|].
  simpl in Hs. apply andb_true_iff in Hs as [Hp Hs]. cbn [existsb].
  rewrite (IH Hs), orb_false_r.
  destruct p; [discriminate|reflexivity].
Qed.

(** *** Lines *)

Lemma split_cons (sep c : ascii) (text : str) :
  split sep (c :: text) =
  if Ascii.eqb c sep then [] :: split sep text
  else (c :: hd [] (split sep text)) :: tl (split sep text).
Proof.
  simpl. destruct (Ascii.eqb c sep); [reflexivity|].
  destruct (split sep text); reflexivity.
Qed.

Lemma split_not_nil (sep : ascii) (text : str) : split sep text <> [].
Proof.
  destruct text as [|c text]; [discriminate|]. rewrite split_cons.
  destruct (Ascii.eqb c sep); discriminate.
Qed.

Lemma split_hd_tl (sep : ascii) (text : str) :
  split sep text = hd [] (split sep text) :: tl (split sep text).
Proof.
  pose proof (split_not_nil sep text). now destruct (split sep text).
Qed.

(** Splitting a concatenation: the last segment of the first part and the
    first segment of the second make one line. *)
Lemma split_app (sep : ascii) (x y : str) :
  split sep (x ++ y) =
  removelast (split sep x)
  ++ (last (split sep x) [] ++ hd [] (split sep y)) :: tl (split sep y).
Proof.
  induction x as [|c x IH].
  - simpl. apply split_hd_tl.
  - change ((c :: x) ++ y) with (c :: x ++ y). rewrite !split_cons.
    destruct (Ascii.eqb c sep).
    + pose proof (split_not_nil sep x) as Hx. rewrite IH.
      destruct (split sep x) as [|h t] eqn:E; [easy|]. reflexivity.
    + rewrite IH. pose proof (split_not_nil sep x) as Hx.
      destruct (split sep x) as [|h [|h' t]] eqn:E; [easy| |]; reflexivity.
Qed.

Lemma split_blank (sep : ascii) (u : str) :
  blank u = true -> forallb blank (split sep u) = true.
Proof.
  induction u as [|c u IH]; intros Hu; [reflexivity|].
  simpl in Hu. apply andb_true_iff in Hu as [Hc Hu]. specialize (IH Hu).
  rewrite split_cons. rewrite (split_hd_tl sep u) in IH. simpl in IH.
  apply andb_true_iff in IH as [Hh Ht].
  destruct (Ascii.eqb c sep); simpl.
  - rewrite (split_hd_tl sep u). simpl. now rewrite Hh, Ht.
  - now rewrite Hc, Hh, Ht.
Qed.

(** *** Stripping *)

Lemma lstrip_blank (u l : str) : blank u = true -> lstrip (u ++ l) = lstrip l.
Proof.
  induction u as [|c u IH]; intros Hu; [reflexivity|].
  simpl in Hu. apply andb_true_iff in Hu as [Hc Hu]. simpl.
  rewrite Hc. now apply IH.
Qed.

Lemma lstrip_split (text : str) :
  exists a, blank a = true /\ text = a ++ lstrip text.
Proof.
  induction text as [|c text (a & Ha & IH)].
  - now exists [].
  - simpl. destruct (isspace c) eqn:E.
    + exists (c :: a). simpl. rewrite E, Ha. split; [reflexivity|].
      now rewrite <- IH.
    + now exists [].
Qed.

Lemma rstrip_split (text : str) :
  exists b, blank b = true /\ text = rstrip text ++ b.
Proof.
  unfold rstrip. destruct (lstrip_split (rev text)) as (a & Ha & E).
  exists (rev a). rewrite blank_rev. split; [exact Ha|].
  rewrite <- rev_app_distr, <- E. now rewrite rev_involutive.
Qed.

Lemma rstrip_blank (l u : str) : blank u = true -> rstrip (l ++ u) = rstrip l.
Proof.
  intros Hu. unfold rstrip. rewrite rev_app_distr.
  rewrite lstrip_blank; [reflexivity|]. now rewrite blank_rev.
Qed.

Lemma lstrip_all_blank (u : str) : blank u = true -> lstrip u = [].
Proof.
  intros Hu. rewrite <- (app_nil_r u). now rewrite lstrip_blank.
Qed.

Lemma lstrip_app_solid (l u : str) :
  blank l = false -> lstrip (l ++ u) = lstrip l ++ u.
Proof.
  induction l as [|c l IH]; [discriminate|]. simpl.
  destruct (isspace c); simpl; [exact IH|reflexivity].
Qed.

Lemma strip_pad_left (c : ascii) (l : str) :
  isspace c = true -> strip (c :: l) = strip l.
Proof. intros Hc. unfold strip. simpl. now rewrite Hc. Qed.

Lemma strip_pad_right (l u : str) : blank u = true -> strip (l ++ u) = strip l.
Proof.
  intros Hu. unfold strip. destruct (blank l) eqn:E.
  - rewrite !lstrip_all_blank; trivial. rewrite blank_app. now rewrite E.
  - rewrite lstrip_app_solid by exact E. now apply rstrip_blank.
Qed.

(** The transcript is its stripped text between two runs of white space. *)
Lemma strip_split (text : str) :
  exists a b, blank a = true /\ blank b = true /\
              text = a ++ strip text ++ b.
Proof.
  destruct (lstrip_split text) as (a & Ha & E).
  destruct (rstrip_split (lstrip text)) as (b & Hb & E').
  exists a, b. repeat split; trivial. unfold strip.
  now rewrite <- E', <- E.
Qed.

(** What the extractors compute from the lines of the stripped transcript is
    what they would compute from the lines of the transcript as given, as
    long as the selection [P] and the result [f] do not look at white space
    around a line. *)
Section StripLines.

Context {B : Type}.
Variable P : str -> bool.
Variable f : str -> B.
Hypothesis P_nil : P [] = false.
Hypothesis P_left : forall c l, isspace c = true -> P (c :: l) = P l.
Hypothesis P_right : forall l u, blank u = true -> P (l ++ u) = P l.
Hypothesis f_left : forall c l, isspace c = true -> f (c :: l) = f l.
Hypothesis f_right : forall l u, blank u = true -> f (l ++ u) = f l.

Lemma P_blank (u : str) : blank u = true -> P u = false.
Proof.
  intros Hu. change u with ([] ++ u). now rewrite P_right.
Qed.

Lemma filter_blank_lines (ls : list str) :
  forallb blank ls = true -> filter P ls = [].
Proof.
  induction ls as [|l ls IH]; [reflexivity|]. simpl. intros H.
  apply andb_true_iff in H as [Hl H]. now rewrite (P_blank l Hl), IH.
Qed.

Lemma lines_pad_left (a d : str) :
  blank a = true ->
  map f (filter P (split newline (a ++ d))) =
  map f (filter P (split newline d)).
Proof.
  induction a as [|c a IH]; intros Ha; [reflexivity|].
  simpl in Ha. apply andb_true_iff in Ha as [Hc Ha]. specialize (IH Ha).
  change ((c :: a) ++ d) with (c :: a ++ d). rewrite split_cons.
  rewrite (split_hd_tl newline (a ++ d)) in IH.
  destruct (Ascii.eqb c newline).
  - cbn [filter]. rewrite P_nil. rewrite (split_hd_tl newline (a ++ d)).
    exact IH.
  - cbn [filter] in *. rewrite (P_left c _ Hc).
    destruct (P (hd [] (split newline (a ++ d)))); [|exact IH].
    cbn [map] in *. now rewrite (f_left c _ Hc).
Qed.

Lemma lines_pad_right (c b : str) :
  blank b = true ->
  map f (filter P (split newline (c ++ b))) =
  map f (filter P (split newline c)).
Proof.
  intros Hb. rewrite split_app.
  pose proof (split_blank newline b Hb) as Hs.
  rewrite (split_hd_tl newline b) in Hs. simpl in Hs.
  apply andb_true_iff in Hs as [Hh Ht].
  assert (E : split newline c =
              removelast (split newline c) ++ [last (split newline c) []])
    by apply app_removelast_last, split_not_nil.
  rewrite E at 3. clear E.
  rewrite !filter_app, !map_app. f_equal. cbn [filter].
  rewrite (filter_blank_lines _ Ht), (P_right _ _ Hh).
  destruct (P (last (split newline c) [])); [|reflexivity].
  cbn [map]. now rewrite (f_right _ _ Hh).
Qed.

Lemma lines_strip (text : str) :
  map f (filter P (transcript_lines text)) =
  map f (filter P (raw_lines text)).
Proof.
  unfold transcript_lines, raw_lines.
  destruct (strip_split text) as (a & b & Ha & Hb & E).
  rewrite E at 2. rewrite (lines_pad_left _ _ Ha).
  now rewrite (lines_pad_right _ _ Hb).
Qed.

End StripLines.

(** *** The first colon *)

Lemma split1_cons (sep c : ascii) (text : str) :
  split1 sep (c :: text) =
  if Ascii.eqb c sep then [[]; text]
  else (c :: hd [] (split1 sep text)) :: tl (split1 sep text).
Proof.
  simpl. destruct (Ascii.eqb c sep); [reflexivity|].
  destruct (split1 sep text); reflexivity.
Qed.

Lemma has_colon_cons (c : ascii) (l : str) :
  has_colon (c :: l) = Ascii.eqb c colon || has_colon l.
Proof.
  unfold has_colon. cbn [contains startswith].
  rewrite andb_true_r. now rewrite Ascii.eqb_sym.
Qed.

Lemma isspace_not_colon (c : ascii) :
  isspace c = true -> Ascii.eqb c colon = false.
Proof.
  intros H. destruct (Ascii.eqb c colon) eqn:E; [|reflexivity].
  apply Ascii.eqb_eq in E. subst c. discriminate H.
Qed.

Lemma has_colon_pad_right (l u : str) :
  blank u = true -> has_colon (l ++ u) = has_colon l.
Proof. intros Hu. now apply contains_pad_right. Qed.

Lemma after_first_colon_cons (c : ascii) (l : str) :
  Ascii.eqb c colon = false ->
  after_first_colon (c :: l) = after_first_colon l.
Proof.
  intros Hc. unfold after_first_colon. rewrite split1_cons, Hc.
  unfold item. simpl. now destruct (split1 colon l).
Qed.

Lemma after_first_colon_app (l u : str) :
  has_colon l = true ->
  after_first_colon (l ++ u) = after_first_colon l ++ u.
Proof.
  induction l as [|c l IH]; [discriminate|].
  rewrite has_colon_cons. change ((c :: l) ++ u) with (c :: l ++ u).
  destruct (Ascii.eqb c colon) eqn:E.
  - intros _. unfold after_first_colon. now rewrite !split1_cons, E.
  - simpl. intros H. rewrite !after_first_colon_cons by exact E.
    now apply IH.
Qed.

Lemma strip_utterance_left (c : ascii) (l : str) :
  isspace c = true -> strip (utterance (c :: l)) = strip (utterance l).
Proof.
  intros Hc. unfold utterance. rewrite has_colon_cons.
  rewrite (isspace_not_colon c Hc). simpl.
  destruct (has_colon l).
  - now rewrite after_first_colon_cons by now apply isspace_not_colon.
  - now apply strip_pad_left.
Qed.

Lemma strip_utterance_right (l u : str) :
  blank u = true -> strip (utterance (l ++ u)) = strip (utterance l).
Proof.
  intros Hu. unfold utterance. rewrite (has_colon_pad_right l u Hu).
  destruct (has_colon l) eqn:E.
  - rewrite after_first_colon_app by exact E. now apply strip_pad_right.
  - now apply strip_pad_right.
Qed.

Lemma filter_nil_existsb {A : Type} (P : A -> bool) (l : list A) :
  filter P l = [] <-> existsb P l = false.
Proof.
  induction l as [|x l IH]; simpl; [tauto|].
  destruct (P x); simpl; [split; discriminate|exact IH].
Qed.

(** ** The fallback extractors *)

Lemma decisions_loop (lines : list str) (acc : list str) :
  fold_left decisions_step lines acc =
  acc ++ map (fun line => strip (utterance line))
           (filter (mentions decision_triggers) lines).
Proof.
  revert acc. induction lines as [|line lines IH]; intros acc.
  - simpl. now rewrite app_nil_r.
  - cbn [fold_left filter]. rewrite IH. unfold decisions_step.
    change (existsb (fun kw => contains kw (lower line)) decision_keywords)
      with (mentions decision_triggers line).
    destruct (mentions decision_triggers line); [|reflexivity].
    cbn [map]. rewrite <- app_assoc. do 2 f_equal.
    unfold utterance, has_colon, after_first_colon.
    change (lit ":") with [colon]. now destruct (contains [colon] line).
Qed.

(** C5: the heuristic [extract_decisions] emits, for each line of the
    transcript whose lower-cased text contains one of the decision phrases,
    in order, the trimmed text after the line's first colon (the trimmed
    line when it has no colon), keeping repetitions and full length; the
    lines can be taken from the stripped transcript, as the code does, or
    from the transcript as given.  Without such a line the result is empty,
    and the line of Charlie's yields its text without the speaker label. *)
Theorem C5_decisions_per_trigger_line (transcript : str) :
  extract_decisions_fallback transcript =
    map (fun line => strip (utterance line))
      (filter (mentions decision_triggers) (transcript_lines transcript))
  /\ extract_decisions_fallback transcript =
    map (fun line => strip (utterance line))
      (filter (mentions decision_triggers) (raw_lines transcript))
  /\ (extract_decisions_fallback transcript = [] <->
      existsb (mentions decision_triggers) (raw_lines transcript) = false)
  /\ extract_decisions_fallback
       (lit "Charlie: I agreed to handle the client presentation next Tuesday.")
     = [lit "I agreed to handle the client presentation next Tuesday."].
Proof.
  assert (E : extract_decisions_fallback transcript =
    map (fun line => strip (utterance line))
      (filter (mentions decision_triggers) (transcript_lines transcript))).
  { unfold extract_decisions_fallback. now rewrite decisions_loop. }
  assert (E' : extract_decisions_fallback transcript =
    map (fun line => strip (utterance line))
      (filter (mentions decision_triggers) (raw_lines transcript))).
  { rewrite E. apply lines_strip.
    - reflexivity.
    - intros c l Hc. now apply mentions_pad_left.
    - intros l u Hu. now apply mentions_pad_right.
    - apply strip_utterance_left.
    - apply strip_utterance_right. }
  repeat split; trivial; rewrite E'; intros H.
  - apply map_eq_nil in H. now apply filter_nil_existsb.
  - apply filter_nil_existsb in H. now rewrite H.
Qed.

Lemma mentions_one (phrase line : str) :
  mentions [phrase] line = contains phrase (lower line).
Proof. unfold mentions. simpl. apply orb_false_r. Qed.

Lemma task_due_run (clock : nat -> Z) (line : str) (w : world) :
  exists k w',
    task_due clock (lower line) w =
      (Ok (Date.strftime_ymd (clock k + due_days line)), w')
    /\ notices w' = notices w.
Proof.
  unfold task_due, due_days, bind, now, ret, Date.plus_days.
  rewrite !mentions_one. cbn [fst snd clock_reads notices].
  destruct (contains (lit "tomorrow") (lower line)).
  - now exists (S (clock_reads w)),
      (mkWorld (S (S (clock_reads w))) (service_calls w) (notices w)).
  - destruct (contains (lit "end of week") (lower line)).
    + now exists (S (clock_reads w)),
        (mkWorld (S (S (clock_reads w))) (service_calls w) (notices w)).
    + now exists (clock_reads w),
        (mkWorld (S (clock_reads w)) (service_calls w) (notices w)).
Qed.

Lemma task_desc_utterance (line : str) :
  task_desc line = strip (utterance line).
Proof.
  unfold task_desc, utterance, has_colon, after_first_colon.
  change (lit ":") with [colon]. now destruct (contains [colon] line).
Qed.

(** The loop appends to [tasks] one Task per selected line, in order, and
    leaves the notices alone. *)
Lemma tasks_loop_run (clock : nat -> Z) (attendees lines : list str) :
  forall (acc : list Task) (w : world),
  exists ts w',
    tasks_loop clock attendees lines acc w = (Ok (acc ++ ts), w')
    /\ Forall2 (fallback_task clock attendees)
         (filter (mentions task_triggers) lines) ts
    /\ notices w' = notices w.
Proof.
  induction lines as [|line lines IH]; intros acc w.
  - exists [], w. rewrite app_nil_r. repeat split. constructor.
  - cbn [tasks_loop filter].
    change (existsb (fun kw => contains kw (lower line)) task_keywords)
      with (mentions task_triggers line).
    destruct (mentions task_triggers line); [|apply IH].
    destruct (task_due_run clock line w) as (k & w1 & E1 & N1).
    unfold bind at 1. rewrite E1.
    match goal with
    | |- context [tasks_loop _ _ _ (acc ++ [?t]) w1] =>
        destruct (IH (acc ++ [t]) w1) as (ts & w' & E & F & N);
        exists (t :: ts), w'
    end.
    rewrite E, <- app_assoc. repeat split; [|congruence].
    constructor; [|exact F]. exists k. now rewrite task_desc_utterance.
Qed.

Lemma task_triggers_solid : forallb solid task_triggers = true.
Proof. reflexivity. Qed.

Lemma trigger_lines_strip (transcript : str) :
  List.length (filter (mentions task_triggers) (transcript_lines transcript))
  = List.length (filter (mentions task_triggers) (raw_lines transcript)).
Proof.
  rewrite <- (length_map (fun _ => tt)).
  rewrite <- (length_map (fun _ => tt) (filter _ (raw_lines transcript))).
  f_equal. apply lines_strip; trivial.
  - intros c l Hc. now apply mentions_pad_left.
  - intros l u Hu. now apply mentions_pad_right.
Qed.

(** C1: the heuristic [extract_tasks] returns, without raising, one Task
    for each transcript line whose lower-cased text contains a trigger
    phrase, in the order of the lines, and nothing else: the Tasks pair off
    with the selected lines of the stripped transcript, there are as many
    of them as there are selected newline-delimited segments in the
    transcript as given, and the result is empty exactly when no segment is
    selected. *)
Theorem C1_one_task_per_trigger_line (clock : nat -> Z) (transcript : str)
    (attendees : list str) (w : world) :
  exists tasks w',
    extract_tasks_fallback clock transcript attendees w = (Ok tasks, w')
    /\ Forall2 (fallback_task clock attendees)
         (filter (mentions task_triggers) (transcript_lines transcript))
         tasks
    /\ List.length tasks =
       List.length (filter (mentions task_triggers) (raw_lines transcript))
    /\ (tasks = [] <->
        existsb (mentions task_triggers) (raw_lines transcript) = false).
Proof.
  unfold extract_tasks_fallback.
  destruct (tasks_loop_run clock attendees
              (split newline (strip transcript)) [] w)
    as (ts & w' & E & F & _).
  exists ts, w'. split; [exact E|]. split; [exact F|].
  assert (L : List.length ts =
              List.length (filter (mentions task_triggers)
                             (raw_lines transcript))).
  { rewrite <- trigger_lines_strip. symmetry.
    apply (Forall2_length F). }
  split; [exact L|].
  rewrite <- filter_nil_existsb. split; intros H.
  - rewrite H in L. symmetry in L. now apply length_zero_iff_nil in L.
  - rewrite H in L. now apply length_zero_iff_nil in L.
Qed.

Lemma item_0 (l : list str) : item l 0 = hd [] l.
Proof. now destruct l. Qed.

Lemma split_first_prefix (sep : ascii) (line : str) :
  exists r, line = item (split sep line) 0 ++ r.
Proof.
  induction line as [|c line (r & IH)]; [now exists []|].
  rewrite split_cons. destruct (Ascii.eqb c sep).
  - now exists (c :: line).
  - exists r. rewrite item_0 in *. simpl. now rewrite <- IH.
Qed.

Lemma split1_first_prefix (sep : ascii) (line : str) :
  exists r, line = item (split1 sep line) 0 ++ r.
Proof.
  induction line as [|c line (r & IH)]; [now exists []|].
  rewrite split1_cons. destruct (Ascii.eqb c sep).
  - now exists (c :: line).
  - exists r. rewrite item_0 in *. simpl. now rewrite <- IH.
Qed.

Lemma contains_lower_prefix (p line pre r : str) :
  line = pre ++ r -> contains p (lower pre) = true ->
  contains p (lower line) = true.
Proof.
  intros -> H. rewrite lower_app. now apply contains_app_l.
Qed.

(** The speaker label adds nothing to the search in the whole line, so the
    test of the loop and the test of the specification agree. *)
Lemma name_test_agrees (line att : str) :
  (contains (lower att) (lower line)
   || (contains (lit ": ") line
       && contains (lower att) (lower (item (split colon line) 0))))
  = name_appears line att.
Proof.
  unfold name_appears, before_first_colon.
  destruct (contains (lower att) (lower line)) eqn:E; [reflexivity|].
  simpl.
  destruct (split_first_prefix colon line) as (r & Hr).
  destruct (split1_first_prefix colon line) as (r1 & Hr1).
  destruct (contains (lower att) (lower (item (split colon line) 0))) eqn:E0.
  { rewrite (contains_lower_prefix _ _ _ _ Hr E0) in E. discriminate. }
  destruct (contains (lower att) (lower (item (split1 colon line) 0))) eqn:E1.
  { rewrite (contains_lower_prefix _ _ _ _ Hr1 E1) in E. discriminate. }
  now rewrite !andb_false_r.
Qed.

Lemma assignee_loop_rule (attendees : list str) (line : str) :
  assignee_loop line (lower line) attendees (lit "Unassigned")
  = assignee_rule attendees line.
Proof.
  unfold assignee_rule.
  induction attendees as [|att rest IH]; [reflexivity|].
  cbn [assignee_loop find]. rewrite name_test_agrees.
  destruct (name_appears line att); [reflexivity|exact IH].
Qed.

Lemma task_priority_rule (line : str) :
  task_priority (lower line) = priority_rule line.
Proof.
  unfold task_priority, priority_rule, mentions. cbn [existsb].
  rewrite !orb_false_r, !orb_assoc. reflexivity.
Qed.






(** Bob's line of the specification: assignee Bob, priority Medium, due in
    seven days. *)
Example bob_line_task :
  returned
    (extract_tasks_fallback (fun _ => 20760%Z)
       (lit "Bob: I will complete the API integration by Friday.")
       [lit "Alice"; lit "Bob"; lit "Charlie"] (mkWorld 0 0 []))
  = Some [new_Task (PStr (lit "I will complete the API integration by Friday."))
            (PStr (lit "Bob")) (PStr (lit "2026-11-10"))
            (PStr (lit "Medium"))].
Proof. reflexivity. Qed.

(** C3, as amended: the description of every Task of the heuristic path is
    the text after the line's first colon (the whole line when it has no
    colon) with the white space at both ends removed, cut to its first 100
    characters; it has at most 100 characters, and exactly 100 when the
    trimmed text is longer than that. *)
Theorem C3_description_trimmed_then_cut (clock : nat -> Z) (transcript : str)
    (attendees : list str) (w : world) :
  exists tasks w',
    extract_tasks_fallback clock transcript attendees w = (Ok tasks, w')
    /\ Forall2
         (fun line t =>
            exists d,
              description t = PStr d
              /\ d = firstn 100 (strip (utterance line))
              /\ List.length d <= 100
              /\ (100 < List.length (strip (utterance line)) ->
                  List.length d = 100))
         (filter (mentions task_triggers) (transcript_lines transcript))
         tasks.
Proof.
  destruct (tasks_loop_run clock attendees (transcript_lines transcript) [] w)
    as (ts & w' & E & F & _).
  exists ts, w'. split; [exact E|].
  revert F. apply Forall2_impl. intros line t [k ->].
  exists (firstn 100 (strip (utterance line))).
  repeat split.
  - apply firstn_le_length.
  - intros H. rewrite length_firstn. lia.
Qed.

(** C3 as it was stated fails: the description is not the text after the
    colon itself, which starts with the blank that follows the colon; and a
    text after the colon of more than 100 characters can leave a description
    of fewer than 100. *)
Lemma C3_description_counterexample :
  (exists t,
     returned (extract_tasks_fallback (fun _ => 0%Z) (lit "Bob: I will go")
                 [] (mkWorld 0 0 [])) = Some [t]
     /\ description t = PStr (lit "I will go")
     /\ firstn 100 (utterance (lit "Bob: I will go")) = lit " I will go"
     /\ description t <> PStr (firstn 100 (utterance (lit "Bob: I will go"))))
  /\
  (let line := lit "Bob: will" ++ repeat " "%char 100 in
   exists t,
     returned (extract_tasks_fallback (fun _ => 0%Z)
                 (line ++ newline :: lit "ok") [] (mkWorld 0 0 []))
       = Some [t]
     /\ List.length (utterance line) = 105
     /\ description t = PStr (lit "will")).
Proof.
  split.
  - eexists. repeat split; try reflexivity. discriminate.
  - eexists. repeat split; reflexivity.
Qed.

(** *** The summary *)

Lemma contains_pad_left_blank (p a l : str) :
  solid p = true -> blank a = true -> contains p (a ++ l) = contains p l.
Proof.
  intros Hp. induction a as [|c a IH]; intros Ha; [reflexivity|].
  simpl in Ha. apply andb_true_iff in Ha as [Hc Ha].
  change ((c :: a) ++ l) with (c :: a ++ l).
  rewrite (contains_pad_left p c _ Hp Hc). now apply IH.
Qed.

(** A solid keyword is found in the stripped text exactly when it is found
    in the text. *)
Lemma contains_lower_strip (p text : str) :
  solid p = true ->
  contains p (lower (strip text)) = contains p (lower text).
Proof.
  intros Hp. destruct (strip_split text) as (a & b & Ha & Hb & E).
  rewrite E at 2. rewrite !lower_app.
  rewrite contains_pad_left_blank by (trivial; now rewrite blank_lower).
  rewrite contains_pad_right by (trivial; now rewrite blank_lower).
  reflexivity.
Qed.

Lemma eqb_eq (a b : str) : eqb a b = true <-> a = b.
Proof. unfold eqb. destruct (list_eq_dec ascii_dec a b); split; easy. Qed.

Lemma set_add_In (x y : str) (topics : list str) :
  In x (set_add y topics) <-> x = y \/ In x topics.
Proof.
  unfold set_add. destruct (existsb (eqb y) topics) eqn:E.
  - apply existsb_exists in E as (z & Hz & Ez). apply eqb_eq in Ez. subst z.
    split; [now right|]. now intros [->|H].
  - rewrite in_app_iff. simpl. intuition congruence.
Qed.

Lemma set_add_NoDup (y : str) (topics : list str) :
  NoDup topics -> NoDup (set_add y topics).
Proof.
  intros H. unfold set_add. destruct (existsb (eqb y) topics) eqn:E; trivial.
  apply NoDup_app; trivial.
  - repeat constructor. easy.
  - intros z Hz [->|[]].
    assert (existsb (eqb z) topics = true); [|congruence].
    apply existsb_exists. exists z. split; trivial. now apply eqb_eq.
Qed.

Lemma cond_add_In (b : bool) (x y : str) (topics : list str) :
  In x (cond_add b y topics) <-> (b = true /\ x = y) \/ In x topics.
Proof.
  destruct b; simpl; [rewrite set_add_In|]; intuition congruence.
Qed.

Lemma cond_add_NoDup (b : bool) (y : str) (topics : list str) :
  NoDup topics -> NoDup (cond_add b y topics).
Proof. destruct b; simpl; trivial. apply set_add_NoDup. Qed.

(** The loop body, as four guarded insertions on the text after the colon. *)
Lemma summary_step_adds (topics : list str) (line : str) :
  summary_step topics line =
  let hit := fun topic => line_hits topic line in
  cond_add (hit (nth 3 topic_table ([], []))) (lit "Blockers & Issues")
    (cond_add (hit (nth 2 topic_table ([], []))) (lit "Budget Review")
       (cond_add (hit (nth 1 topic_table ([], []))) (lit "Timeline Discussion")
          (cond_add (hit (nth 0 topic_table ([], []))) (lit "Project Updates")
             topics))).
Proof.
  unfold summary_step, line_hits. change (contains (lit ":") line)
    with (has_colon line).
  destruct (has_colon line); [|reflexivity].
  change (item (split1 colon line) 1) with (after_first_colon line).
  rewrite !contains_lower_strip by reflexivity.
  cbv zeta. cbn [nth topic_table snd andb mentions existsb].
  rewrite !orb_false_r, !orb_assoc. reflexivity.
Qed.

Lemma summary_step_In (topics : list str) (line x : str) :
  In x (summary_step topics line) <->
  In x topics \/
  exists topic, In topic topic_table /\ fst topic = x
                /\ line_hits topic line = true.
Proof.
  rewrite summary_step_adds. cbv zeta. rewrite !cond_add_In.
  cbn [nth topic_table]. split.
  - intros [[H ->]|[[H ->]|[[H ->]|[[H ->]|H]]]]; [right..|now left];
      eexists; (split; [|split; [|exact H]]); simpl; auto 6.
  - intros [H|(topic & Hin & <- & H)]; [tauto|].
    simpl in Hin.
    destruct Hin as [<-|[<-|[<-|[<-|[]]]]]; simpl; tauto.
Qed.

Lemma summary_step_NoDup (topics : list str) (line : str) :
  NoDup topics -> NoDup (summary_step topics line).
Proof.
  intros H. rewrite summary_step_adds. cbv zeta.
  now repeat apply cond_add_NoDup.
Qed.

Lemma summary_loop (lines topics : list str) (x : str) :
  NoDup topics ->
  NoDup (fold_left summary_step lines topics)
  /\ (In x (fold_left summary_step lines topics) <->
      In x topics \/
      exists topic, In topic topic_table /\ fst topic = x
                    /\ existsb (line_hits topic) lines = true).
Proof.
  revert topics. induction lines as [|line lines IH]; intros topics H.
  - simpl. split; trivial. split; [tauto|].
    now intros [?|(? & _ & _ & ?)].
  - cbn [fold_left existsb].
    destruct (IH _ (summary_step_NoDup topics line H)) as [N I].
    split; trivial. rewrite I, summary_step_In. split.
    + intros [[?|(tp & ? & ? & E)]|(tp & ? & ? & E)]; [tauto|right..];
        exists tp; rewrite E; auto using orb_true_r.
    + intros [?|(tp & ? & ? & E)]; [tauto|].
      apply orb_true_iff in E as [E|E]; [left; right|right]; now exists tp.
Qed.

Lemma matched_labels_In (lines : list str) (x : str) :
  In x (matched_labels lines) <->
  exists topic, In topic topic_table /\ fst topic = x
                /\ existsb (line_hits topic) lines = true.
Proof.
  unfold matched_labels. rewrite in_map_iff. split.
  - intros (tp & E & H). apply filter_In in H as [? ?]. now exists tp.
  - intros (tp & ? & E & ?). exists tp. split; trivial.
    now apply filter_In.
Qed.

Lemma NoDup_map_filter {A B : Type} (f : A -> B) (P : A -> bool)
    (l : list A) :
  NoDup (map f l) -> NoDup (map f (filter P l)).
Proof.
  induction l as [|a l IH]; simpl; intros H; [constructor|].
  inversion H as [|? ? Hn Hd]; subst. destruct (P a); simpl; [|now apply IH].
  constructor; [|now apply IH]. intros Hin. apply Hn.
  apply in_map_iff in Hin as (b & E & Hb). apply filter_In in Hb as [Hb _].
  rewrite <- E. now apply in_map.
Qed.

Lemma matched_labels_NoDup (lines : list str) : NoDup (matched_labels lines).
Proof.
  apply NoDup_map_filter. simpl.
  repeat (constructor; [simpl; intuition discriminate|]). constructor.
Qed.

(** The set built by the summary loop holds the matched labels. *)
Lemma summary_topics (lines : list str) :
  Permutation (fold_left summary_step lines []) (matched_labels lines).
Proof.
  apply NoDup_Permutation.
  - apply (summary_loop lines [] []). constructor.
  - apply matched_labels_NoDup.
  - intros x. destruct (summary_loop lines [] x (NoDup_nil _)) as [_ I].
    rewrite I, matched_labels_In. simpl. tauto.
Qed.

(** C4, as amended: the heuristic [summarize] returns "Meeting covered N
    discussion points", where N is the number of lines of the transcript
    after the white space at its two ends has been removed, followed by
    " including: " with the comma-joined topic labels and a full stop exactly
    when some label is matched; the labels are those of the four topics of
    which some line, in the lower-cased text after its first colon, contains
    a keyword, each once, in the order the set yields them. *)
Theorem C4_summary_counts_stripped_lines (set_order : list str -> list str)
    (transcript : str) :
  (forall l, Permutation (set_order l) l) ->
  exists labels,
    Permutation labels (matched_labels (transcript_lines transcript))
    /\ NoDup labels
    /\ extract_summary_fallback set_order transcript =
       lit "Meeting covered "
       ++ of_nat (List.length (transcript_lines transcript))
       ++ lit " discussion points"
       ++ match labels with
          | [] => []
          | _ :: _ => lit " including: " ++ join (lit ", ") labels ++ lit "."
          end.
Proof.
  intros Hperm. unfold extract_summary_fallback.
  fold (transcript_lines transcript).
  pose proof (summary_topics (transcript_lines transcript)) as P.
  set (topics := fold_left summary_step (transcript_lines transcript) []) in *.
  exists (set_order topics).
  assert (P' : Permutation (set_order topics)
                 (matched_labels (transcript_lines transcript)))
    by (eapply Permutation_trans; [apply Hperm|exact P]).
  split; [exact P'|]. split.
  { eapply Permutation_NoDup; [symmetry; exact P'|].
    apply matched_labels_NoDup. }
  pose proof (Hperm topics) as Ht. destruct topics as [|x topics].
  - symmetry in Ht. apply Permutation_nil in Ht. rewrite Ht.
    now rewrite app_nil_r.
  - destruct (set_order (x :: topics)) as [|y labels] eqn:E.
    + apply Permutation_nil in Ht. discriminate.
    + now rewrite <- !app_assoc.
Qed.

Lemma C4_summary_counts_stripped_lines_witness :
  exists labels,
    Permutation labels
      (matched_labels
         (transcript_lines (lit "Alice: Let's discuss the project timeline.")))
    /\ NoDup labels
    /\ extract_summary_fallback (fun l => l)
         (lit "Alice: Let's discuss the project timeline.") =
       lit "Meeting covered "
       ++ of_nat (List.length
                    (transcript_lines
                       (lit "Alice: Let's discuss the project timeline.")))
       ++ lit " discussion points"
       ++ match labels with
          | [] => []
          | _ :: _ => lit " including: " ++ join (lit ", ") labels ++ lit "."
          end.
Proof.
  apply (C4_summary_counts_stripped_lines (fun l => l)).
  intros l. apply Permutation_refl.
Defined.

Example summary_of_alice_line :
  extract_summary_fallback (fun l => l)
    (lit "Alice: Let's discuss the project timeline.")
  = lit "Meeting covered 1 discussion points including: Project Updates, Timeline Discussion.".
Proof. reflexivity. Qed.

(** C4 as it was stated fails: an empty first line is a line of the
    transcript, and is not counted. *)
Lemma C4_line_count_counterexample :
  let transcript := newline :: lit "Bob: hello" in
  raw_lines transcript = [[]; lit "Bob: hello"]
  /\ extract_summary_fallback (fun l => l) transcript
     = lit "Meeting covered 1 discussion points"
  /\ extract_summary_fallback (fun l => l) transcript
     <> lit "Meeting covered " ++ of_nat (List.length (raw_lines transcript))
        ++ lit " discussion points".
Proof. repeat split; try reflexivity. discriminate. Qed.

(** *** Determinism *)

Lemma Forall2_map {A B : Type} (f : A -> B) (l : list A) (l' : list B) :
  Forall2 (fun a b => b = f a) l l' -> l' = map f l.
Proof. induction 1; simpl; congruence. Qed.

(** With the clock fixed, the Tasks are a function of the transcript and
    the attendees alone. *)
Lemma tasks_fixed_clock (clock : nat -> Z) (today : Z) (transcript : str)
    (attendees : list str) (w : world) :
  fixed_clock clock today ->
  exists w',
    extract_tasks_fallback clock transcript attendees w =
      (Ok (map (task_on today attendees)
             (filter (mentions task_triggers)
                (transcript_lines transcript))), w')
    /\ notices w' = notices w.
Proof.
  intros Hc.
  destruct (tasks_loop_run clock attendees (transcript_lines transcript) [] w)
    as (ts & w' & E & F & N).
  exists w'. split; [|exact N].
  unfold extract_tasks_fallback. fold (transcript_lines transcript).
  rewrite E. do 2 f_equal. apply Forall2_map.
  revert F. apply Forall2_impl. intros line t [k ->]. unfold task_on.
  now rewrite assignee_loop_rule, task_priority_rule, Hc.
Qed.

(** C8: with a fixed clock the heuristic path is deterministic: running the
    three extractions a second time, after the first, on the same transcript
    and the same attendees returns the same summary, the same Tasks and the
    same decisions. *)
Theorem C8_fallback_deterministic (clock : nat -> Z) (today : Z)
    (set_order : list str -> list str) (transcript : str)
    (attendees : list str) (w : world) :
  fixed_clock clock today ->
  exists out w1 w2,
    process_fallback clock set_order transcript attendees w = (Ok out, w1)
    /\ process_fallback clock set_order transcript attendees w1 = (Ok out, w2).
Proof.
  intros Hc.
  destruct (tasks_fixed_clock clock today transcript attendees w Hc)
    as (w1 & E1 & _).
  destruct (tasks_fixed_clock clock today transcript attendees w1 Hc)
    as (w2 & E2 & _).
  eexists _, w1, w2. unfold process_fallback, bind, ret.
  rewrite E1, E2. split; reflexivity.
Qed.

Lemma C8_fallback_deterministic_witness :
  exists out w1 w2,
    process_fallback (fun _ => 20760%Z) (fun l => l)
      (lit "Bob: I will send the budget tomorrow, as agreed.")
      [lit "Alice"; lit "Bob"] (mkWorld 0 0 []) = (Ok out, w1)
    /\ process_fallback (fun _ => 20760%Z) (fun l => l)
         (lit "Bob: I will send the budget tomorrow, as agreed.")
         [lit "Alice"; lit "Bob"] w1 = (Ok out, w2).
Proof.
  apply (C8_fallback_deterministic (fun _ => 20760%Z) 20760%Z).
  intros k. reflexivity.
Defined.

(** ** The AI path *)

(** A [try] whose handlers catch every exception and return, returns. *)
Lemma try_except_returns {A : Type} (body : M A)
    (handler : exn -> option (M A)) (w : world) :
  (forall e w1, exists h a w2, handler e = Some h /\ h w1 = (Ok a, w2)) ->
  exists a w', try_except body handler w = (Ok a, w').
Proof.
  intros H. unfold try_except. destruct (body w) as [[a|e] w1].
  - now exists a, w1.
  - destruct (H e w1) as (h & a & w2 & -> & E). now exists a, w2.
Qed.

Lemma init_gemini_run (genai_configure : nat -> str -> result unit)
    (key : str) (w : world) :
  exists b w1,
    init_gemini genai_configure key w = (Ok b, w1)
    /\ clock_reads w1 = clock_reads w
    /\ warnings w1 = warnings w.
Proof.
  unfold init_gemini, try_except, bind, call, ret, show.
  destruct (genai_configure (service_calls w) key) as [[]|e].
  - now eexists true, _.
  - eexists false, _. split; [reflexivity|]. split; [reflexivity|].
    unfold warnings. cbn [notices]. rewrite filter_app. simpl.
    apply app_nil_r.
Qed.

Section AIPath.

Variable clock : nat -> Z.
Variable set_order : list str -> list str.
Variable genai_configure : nat -> str -> result unit.
Variable GenerativeModel : nat -> str -> result unit.
Variable generate_content : nat -> str -> result str.
Variable json_loads : str -> option pyval.
Variable py_str : pyval -> str.

Abbreviation summary_ai := (extract_summary_ai genai_configure GenerativeModel
                          generate_content).
Abbreviation tasks_ai := (extract_tasks_ai clock genai_configure GenerativeModel
                        generate_content json_loads).
Abbreviation decisions_ai := (extract_decisions_ai genai_configure GenerativeModel
                            generate_content json_loads).
Abbreviation email_ai := (generate_followup_email_ai genai_configure
                        GenerativeModel generate_content py_str).

Lemma summary_ai_returns (transcript key : str) (w : world) :
  exists text w', summary_ai transcript key w = (Ok text, w').
Proof.
  apply try_except_returns. intros e w1. now eexists _, _, w1.
Qed.

Lemma email_ai_returns (meeting : Meeting) (key : str) (w : world) :
  exists text w', email_ai meeting key w = (Ok text, w').
Proof.
  apply try_except_returns. intros e w1. now eexists _, _, w1.
Qed.

Lemma decisions_ai_returns (transcript key : str) (w : world) :
  exists ds w', decisions_ai transcript key w = (Ok ds, w').
Proof.
  apply try_except_returns. intros e w1. now eexists _, _, w1.
Qed.

Lemma tasks_ai_returns (transcript : str) (attendees : list str) (key : str)
    (w : world) :
  exists ts w', tasks_ai transcript attendees key w = (Ok ts, w').
Proof.
  apply try_except_returns. intros [|c m] w1.
  - now eexists _, _, w1.
  - eexists _, _, _. split; reflexivity.
Qed.

Lemma summary_ai_on_failure (transcript key : str) (w : world) (e : exn) :
  service_fails GenerativeModel generate_content e ->
  returned (summary_ai transcript key w)
  = Some (lit "Error generating summary: " ++ exn_str e).
Proof.
  intros H. unfold extract_summary_ai, try_except, returned.
  unfold bind at 1.
  destruct (init_gemini_run genai_configure key w) as (b & w1 & -> & _).
  unfold get_gemini_model, bind, call.
  destruct H as [Hm|[Hm H]]; rewrite Hm; [reflexivity|]. now rewrite H.
Qed.

Lemma summary_ai_on_answer (transcript key : str) (w : world) (resp : str) :
  service_answers GenerativeModel generate_content resp ->
  returned (summary_ai transcript key w) = Some (strip resp).
Proof.
  intros [Hm H]. unfold extract_summary_ai, try_except, returned.
  unfold bind at 1.
  destruct (init_gemini_run genai_configure key w) as (b & w1 & -> & _).
  unfold get_gemini_model, bind, call. now rewrite Hm, H.
Qed.

Lemma email_ai_on_failure (meeting : Meeting) (key : str) (w : world)
    (e : exn) :
  service_fails GenerativeModel generate_content e ->
  exists e',
    returned (email_ai meeting key w)
    = Some (lit "Error generating email: " ++ exn_str e')
    /\ (truthy (decisions meeting) = false
        \/ (exists ds, py_iter (decisions meeting) = Ok ds) -> e' = e).
Proof.
  intros H. unfold generate_followup_email_ai, try_except, returned.
  unfold bind at 1.
  destruct (init_gemini_run genai_configure key w) as (b & w1 & -> & _).
  unfold get_gemini_model, bind, call, lift.
  destruct H as [Hm|[Hm H]]; rewrite Hm; [now exists e|].
  destruct (truthy (decisions meeting)); unfold ret; cbv beta iota.
  - destruct (py_iter (decisions meeting)) as [ds|e0] eqn:E; cbv beta iota.
    + rewrite H. now exists e.
    + exists e0. split; [reflexivity|]. intros [?|[ds ?]]; discriminate.
  - rewrite H. now exists e.
Qed.

Lemma process_meeting_returns (use_ai : bool) (key text : str)
    (names : list str) (meeting : Meeting) (w : world) :
  exists m' w',
    process_meeting clock set_order genai_configure GenerativeModel
      generate_content json_loads use_ai key text names meeting w
    = (Ok m', w').
Proof.
  unfold process_meeting. destruct (use_ai && truthy (PStr key)).
  - unfold bind.
    destruct (summary_ai_returns text key w) as (sm & w1 & ->).
    destruct (tasks_ai_returns text names key w1) as (ts & w2 & ->).
    destruct (decisions_ai_returns text key w2) as (ds & w3 & ->).
    now eexists _, _.
  - unfold bind.
    destruct (tasks_loop_run clock names (transcript_lines text) [] w)
      as (ts & w' & E & _).
    unfold extract_tasks_fallback. fold (transcript_lines text).
    rewrite E. now eexists _, _.
Qed.

(** C7: whatever the text-generation service does, the AI-path [summarize]
    and follow-up email return normally with a string; when the service
    fails they return "Error generating summary: ..." and "Error generating
    email: ..." with the description of the failure, when it answers they
    return its stripped answer; and processing a meeting, with or without
    AI, and saving it return normally too. *)
Theorem C7_ai_text_operations_never_raise (transcript key : str)
    (names : list str) (meeting : Meeting) (use_ai : bool) (st : session)
    (w : world) :
  (exists text w', summary_ai transcript key w = (Ok text, w'))
  /\ (exists text w', email_ai meeting key w = (Ok text, w'))
  /\ (forall e, service_fails GenerativeModel generate_content e ->
        returned (summary_ai transcript key w)
        = Some (lit "Error generating summary: " ++ exn_str e))
  /\ (forall e, service_fails GenerativeModel generate_content e ->
        exists e',
          returned (email_ai meeting key w)
          = Some (lit "Error generating email: " ++ exn_str e')
          /\ (truthy (decisions meeting) = false
              \/ (exists ds, py_iter (decisions meeting) = Ok ds) -> e' = e))
  /\ (forall resp, service_answers GenerativeModel generate_content resp ->
        returned (summary_ai transcript key w) = Some (strip resp))
  /\ (exists m' w',
        process_meeting clock set_order genai_configure GenerativeModel
          generate_content json_loads use_ai key transcript names meeting w
        = (Ok m', w'))
  /\ (exists st' w',
        on_save clock set_order genai_configure GenerativeModel
          generate_content json_loads use_ai transcript names st w
        = (Ok st', w')).
Proof.
  split; [apply summary_ai_returns|].
  split; [apply email_ai_returns|].
  split; [intros e; apply summary_ai_on_failure|].
  split; [intros e; apply email_ai_on_failure|].
  split; [intros resp; apply summary_ai_on_answer|].
  split; [apply process_meeting_returns|].
  unfold on_save. destruct (current_meeting st) as [m|]; [|now eexists _, _].
  unfold bind.
  destruct (negb (truthy (PStr (summary (set_transcript m transcript))))).
  - destruct (process_meeting_returns use_ai (api_key st) transcript names
                (set_transcript m transcript) w) as (m' & w' & ->).
    now eexists _, _.
  - now eexists _, _.
Qed.

(** *** Fences *)

Lemma fence_free_inv (body : str) :
  fence_free body = true ->
  exists a rest z front,
    body = a :: rest /\ body = front ++ [z]
    /\ isspace a = false /\ a <> backtick
    /\ isspace z = false /\ z <> backtick.
Proof.
  destruct body as [|a rest]; [discriminate|]. unfold fence_free.
  intros H. repeat (apply andb_true_iff in H as [H ?]).
  exists a, rest, (last (a :: rest) a), (removelast (a :: rest)).
  repeat match goal with
         | H : negb _ = true |- _ => apply negb_true_iff in H
         end.
  repeat split; trivial.
  - now apply app_removelast_last.
  - intros E. rewrite E in *. discriminate.
  - intros E. rewrite E in *. discriminate.
Qed.

Lemma lstrip_solid (a : ascii) (rest : str) :
  isspace a = false -> lstrip (a :: rest) = a :: rest.
Proof. intros H. simpl. now rewrite H. Qed.

Lemma rstrip_solid (front : str) (z : ascii) :
  isspace z = false -> rstrip (front ++ [z]) = front ++ [z].
Proof.
  intros H. unfold rstrip. rewrite rev_app_distr. simpl. rewrite H.
  simpl. now rewrite rev_involutive.
Qed.

(** Stripping the response leaves the fences off for the decoder, given
    that the payload is fence free. *)
Lemma unfenced_fenced (lead trail : bool) (ws1 ws2 body resp : str) :
  fence_free body = true -> blank ws1 = true -> blank ws2 = true ->
  strip resp = fenced lead trail ws1 ws2 body ->
  unfenced resp = body.
Proof.
  intros Hb H1 H2 E. unfold unfenced. rewrite E. clear E resp.
  destruct (fence_free_inv body Hb)
    as (a & rest & z & front & Ea & Ez & Ha & Ha' & Hz & Hz').
  assert (L : sub_leading_fence (fenced lead trail ws1 ws2 body)
              = body ++ (if trail then ws2 ++ lit "```" else [])).
  { unfold fenced, sub_leading_fence. destruct lead.
    - cbn [lit list_ascii_of_string app startswith skipn].
      rewrite !Ascii.eqb_refl. cbn [andb]. rewrite lstrip_blank by exact H1.
      rewrite Ea. now apply lstrip_solid.
    - cbn [app]. rewrite Ea. cbn [lit list_ascii_of_string app startswith].
      destruct (Ascii.eqb "`" a) eqn:E; [|reflexivity].
      apply Ascii.eqb_eq in E. now subst a. }
  rewrite L. clear L. unfold sub_trailing_fence. destruct trail.
  - rewrite !rev_app_distr.
    cbn [lit list_ascii_of_string rev app startswith skipn].
    rewrite !Ascii.eqb_refl. cbn [andb].
    rewrite lstrip_blank by now rewrite blank_rev.
    rewrite Ez, rev_app_distr. cbn [rev app]. rewrite lstrip_solid by exact Hz.
    change (z :: rev front) with (rev [z] ++ rev front).
    now rewrite <- rev_app_distr, rev_involutive.
  - rewrite app_nil_r, Ez, rev_app_distr.
    cbn [lit list_ascii_of_string rev app startswith].
    destruct (Ascii.eqb "`" z) eqn:E.
    { apply Ascii.eqb_eq in E. now subst z. }
    destruct (Ascii.eqb newline z) eqn:E'; [|reflexivity].
    apply Ascii.eqb_eq in E'. subst z. discriminate.
Qed.

(** *** Task extraction *)

Lemma try_except_bind {A B : Type} (m : M A) (k : A -> M B)
    (handler : exn -> option (M B)) (a : A) (w w1 : world) :
  m w = (Ok a, w1) ->
  try_except (bind m k) handler w = try_except (k a) handler w1.
Proof. intros E. unfold try_except, bind. now rewrite E. Qed.

(** The loop over decoded objects appends one Task per object. *)
Lemma tasks_ai_loop_dicts (objs : list (list (str * pyval))) :
  forall (acc : list Task) (w : world),
  exists ts w',
    tasks_ai_loop clock (map PDict objs) acc w = (Ok (acc ++ ts), w')
    /\ warnings w' = warnings w
    /\ Forall2 (fun entries t =>
                  exists k,
                    t = ai_task (Date.strftime_ymd (clock k + 7)) entries)
         objs ts.
Proof.
  induction objs as [|entries objs IH]; intros acc w.
  - exists [], w. rewrite app_nil_r. repeat split. constructor.
  - cbn [map tasks_ai_loop py_get]. unfold bind, lift, now.
    cbv beta iota.
    match goal with
    | |- context [tasks_ai_loop _ _ (acc ++ [?t]) ?w1] =>
        destruct (IH (acc ++ [t]) w1) as (ts & w' & E & N & F);
        exists (t :: ts), w'
    end.
    rewrite E, <- app_assoc. repeat split; [exact N|].
    constructor; [|exact F]. now exists (clock_reads w).
Qed.

(** What the call does once the service has answered: the clock has been
    read for the prompt, and the cleaned answer goes to the decoder. *)
Lemma tasks_ai_on_answer (transcript : str) (attendees : list str)
    (key resp : str) (w : world) :
  service_answers GenerativeModel generate_content resp ->
  exists w1,
    warnings w1 = warnings w
    /\ tasks_ai transcript attendees key w =
       match json_loads (unfenced resp) with
       | None => (Ok [], w1)
       | Some tasks_data =>
           match py_iter tasks_data with
           | Ok elements =>
               match tasks_ai_loop clock elements [] w1 with
               | (Ok ts, w2) => (Ok ts, w2)
               | (Raised JSONDecodeError, w2) => (Ok [], w2)
               | (Raised (Exception_ c m), w2) =>
                   (Ok [],
                    mkWorld (clock_reads w2) (service_calls w2)
                      (notices w2
                       ++ [st_warning (lit "Task extraction error: " ++ m)]))
               end
           | Raised JSONDecodeError => (Ok [], w1)
           | Raised (Exception_ c m) =>
               (Ok [],
                mkWorld (clock_reads w1) (service_calls w1)
                  (notices w1
                   ++ [st_warning (lit "Task extraction error: " ++ m)]))
           end
       end.
Proof.
  intros [Hm H]. unfold extract_tasks_ai.
  destruct (init_gemini_run genai_configure key w) as (b & w0 & E0 & _ & N0).
  rewrite (try_except_bind _ _ _ b w w0 E0).
  erewrite (try_except_bind _ _ _ tt w0)
    by (unfold get_gemini_model, call; now rewrite Hm).
  erewrite try_except_bind by reflexivity.
  erewrite try_except_bind by (unfold call; now rewrite H).
  fold (unfenced resp).
  match goal with |- context [try_except _ _ ?w1] => exists w1 end.
  split; [exact N0|].
  unfold try_except. destruct (json_loads (unfenced resp)) as [v|];
    [|reflexivity].
  unfold bind, lift. destruct (py_iter v) as [els|[|c m]]; try reflexivity.
  destruct (tasks_ai_loop clock els [] _) as [[ts|[|c m]] w2]; reflexivity.
Qed.

Lemma tasks_ai_on_failure (transcript : str) (attendees : list str)
    (key class message : str) (w : world) :
  service_fails GenerativeModel generate_content (Exception_ class message) ->
  exists w',
    tasks_ai transcript attendees key w = (Ok [], w')
    /\ warnings w' =
       warnings w ++ [st_warning (lit "Task extraction error: " ++ message)].
Proof.
  intros H. unfold extract_tasks_ai.
  destruct (init_gemini_run genai_configure key w) as (b & w0 & E0 & _ & N0).
  rewrite (try_except_bind _ _ _ b w w0 E0).
  destruct H as [Hm|[Hm H]].
  - unfold try_except, bind, get_gemini_model, call, show, ret.
    rewrite Hm. eexists. split; [reflexivity|].
    unfold warnings in *. cbn [notices]. now rewrite filter_app, N0.
  - erewrite (try_except_bind _ _ _ tt w0)
      by (unfold get_gemini_model, call; now rewrite Hm).
    erewrite try_except_bind by reflexivity.
    unfold try_except, bind, call, show, ret. rewrite H.
    eexists. split; [reflexivity|].
    unfold warnings in *. cbn [notices]. now rewrite filter_app, N0.
Qed.

(** C6: the AI-path task extraction never raises.  It strips the response,
    takes off a leading [```json] with the white space behind it and a
    trailing [```] with the white space before it, and gives the rest to the
    JSON decoder: when the payload between the fences decodes to an array of
    objects, the result holds one Task per object, built from it.  When the
    decoder refuses the text, the result is empty and no warning is shown;
    when the service fails, the result is empty and the warning "Task
    extraction error: ..." is shown.  So the fenced and the unfenced "[]"
    yield an empty sequence, given that "[]" decodes to the empty array, and
    "not json" yields one without raising, given that it does not decode. *)
Theorem C6_tasks_ai_fences_and_failures (transcript : str)
    (attendees : list str) (key : str) (w : world) :
  (exists tasks w', tasks_ai transcript attendees key w = (Ok tasks, w'))
  /\ (forall lead trail ws1 ws2 body resp,
        fence_free body = true -> blank ws1 = true -> blank ws2 = true ->
        strip resp = fenced lead trail ws1 ws2 body ->
        unfenced resp = body)
  /\ (forall lead trail ws1 ws2 body resp objs,
        fence_free body = true -> blank ws1 = true -> blank ws2 = true ->
        strip resp = fenced lead trail ws1 ws2 body ->
        service_answers GenerativeModel generate_content resp ->
        json_loads body = Some (PList (map PDict objs)) ->
        exists tasks w',
          tasks_ai transcript attendees key w = (Ok tasks, w')
          /\ warnings w' = warnings w
          /\ Forall2
               (fun entries t =>
                  exists k,
                    t = ai_task (Date.strftime_ymd (clock k + 7)) entries)
               objs tasks)
  /\ (forall resp,
        service_answers GenerativeModel generate_content resp ->
        json_loads (unfenced resp) = None ->
        exists w',
          tasks_ai transcript attendees key w = (Ok [], w')
          /\ warnings w' = warnings w)
  /\ (forall class message,
        service_fails GenerativeModel generate_content
          (Exception_ class message) ->
        exists w',
          tasks_ai transcript attendees key w = (Ok [], w')
          /\ warnings w' =
             warnings w
             ++ [st_warning (lit "Task extraction error: " ++ message)])
  /\ (forall resp,
        service_answers GenerativeModel generate_content resp ->
        strip resp = lit "```json" ++ [newline] ++ lit "[]" ++ [newline]
                     ++ lit "```"
        \/ strip resp = lit "[]" ->
        json_loads (lit "[]") = Some (PList []) ->
        exists w',
          tasks_ai transcript attendees key w = (Ok [], w')
          /\ warnings w' = warnings w)
  /\ (forall resp,
        service_answers GenerativeModel generate_content resp ->
        strip resp = lit "not json" ->
        json_loads (lit "not json") = None ->
        exists w',
          tasks_ai transcript attendees key w = (Ok [], w')
          /\ warnings w' = warnings w).
Proof.
  split; [apply tasks_ai_returns|].
  split; [apply unfenced_fenced|].
  split.
  { intros lead trail ws1 ws2 body resp objs Hb H1 H2 Hs Ha Hj.
    destruct (tasks_ai_on_answer transcript attendees key resp w Ha)
      as (w1 & N & E).
    rewrite (unfenced_fenced lead trail ws1 ws2 body resp Hb H1 H2 Hs), Hj
      in E.
    cbn [py_iter] in E.
    destruct (tasks_ai_loop_dicts objs [] w1) as (ts & w' & El & Nl & F).
    rewrite El in E. exists ts, w'. split; [exact E|].
    split; [congruence|exact F]. }
  assert (D : forall resp,
            service_answers GenerativeModel generate_content resp ->
            json_loads (unfenced resp) = None ->
            exists w',
              tasks_ai transcript attendees key w = (Ok [], w')
              /\ warnings w' = warnings w).
  { intros resp Ha Hd.
    destruct (tasks_ai_on_answer transcript attendees key resp w Ha)
      as (w1 & N & E).
    rewrite Hd in E. now exists w1. }
  split; [exact D|].
  split; [intros c m; apply tasks_ai_on_failure|].
  split.
  - intros resp Ha Hs Hj.
    assert (U : unfenced resp = lit "[]").
    { destruct Hs as [Hs|Hs].
      - apply (unfenced_fenced true true [newline] [newline]); trivial.
      - apply (unfenced_fenced false false [] []); trivial. }
    destruct (tasks_ai_on_answer transcript attendees key resp w Ha)
      as (w1 & N & E).
    rewrite U, Hj in E. now exists w1.
  - intros resp Ha Hs Hj. apply (D resp Ha).
    rewrite (unfenced_fenced false false [] [] (lit "not json") resp);
      trivial.
Qed.

(** A fenced array of one object, run with the decoder [json_loads_basic]:
    the fences come off and the object becomes a Task. *)
Example tasks_ai_fenced_object :
  extract_tasks_ai (fun _ => 20760%Z) (fun _ _ => Ok tt) (fun _ _ => Ok tt)
    (fun _ _ =>
       Ok (lit "```json" ++ [newline] ++ lit "[{" ++ dq ++ lit "description"
           ++ dq ++ lit ": " ++ dq ++ lit "Ship it" ++ dq ++ lit ", " ++ dq
           ++ lit "assignee" ++ dq ++ lit ": " ++ dq ++ lit "Bob" ++ dq
           ++ lit "}]" ++ [newline] ++ lit "```"))
    JsonBasic.json_loads_basic (lit "Bob: hello") [lit "Bob"] (lit "key")
    (mkWorld 0 0 [])
  = (Ok [new_Task (PStr (lit "Ship it")) (PStr (lit "Bob"))
           (PStr (lit "2026-11-10")) (PStr (lit "Medium"))],
     mkWorld 2 3 []).
Proof. reflexivity. Qed.

(** The three responses of the specification, run with the decoder
    [json_loads_basic]. *)
Example tasks_ai_fenced_empty :
  extract_tasks_ai (fun _ => 20760%Z) (fun _ _ => Ok tt) (fun _ _ => Ok tt)
    (fun _ _ => Ok (lit "```json" ++ [newline] ++ lit "[]" ++ [newline]
                  ++ lit "```"))
    JsonBasic.json_loads_basic (lit "Bob: hello") [lit "Bob"] (lit "key")
    (mkWorld 0 0 [])
  = (Ok [], mkWorld 1 3 []).
Proof. reflexivity. Qed.

Example tasks_ai_unfenced_empty :
  extract_tasks_ai (fun _ => 20760%Z) (fun _ _ => Ok tt) (fun _ _ => Ok tt)
    (fun _ _ => Ok (lit "[]")) JsonBasic.json_loads_basic (lit "Bob: hello")
    [lit "Bob"] (lit "key") (mkWorld 0 0 [])
  = (Ok [], mkWorld 1 3 []).
Proof. reflexivity. Qed.

Example tasks_ai_not_json :
  extract_tasks_ai (fun _ => 20760%Z) (fun _ _ => Ok tt) (fun _ _ => Ok tt)
    (fun _ _ => Ok (lit "not json")) JsonBasic.json_loads_basic
    (lit "Bob: hello") [lit "Bob"] (lit "key") (mkWorld 0 0 [])
  = (Ok [], mkWorld 1 3 []).
Proof. reflexivity. Qed.

Lemma dict_get_default (entries : list (str * pyval)) (key : str)
    (default : pyval) :
  (forall v, ~ In (key, v) entries) -> dict_get entries key default = default.
Proof.
  induction entries as [|[k x] rest IH]; intros H; [reflexivity|].
  simpl. destruct (eqb k key) eqn:E.
  - apply eqb_eq in E. subst k. destruct (H x). now left.
  - apply IH. intros v Hv. apply (H v). now right.
Qed.

Lemma dict_get_found (entries : list (str * pyval)) (key : str)
    (v default : pyval) :
  NoDup (map fst entries) -> In (key, v) entries ->
  dict_get entries key default = v.
Proof.
  induction entries as [|[k x] rest IH]; intros N H; [easy|].
  simpl in N. inversion N as [|? ? Hn N']; subst. simpl.
  destruct H as [H|H].
  - inversion H; subst. unfold eqb.
    now destruct (list_eq_dec ascii_dec key key).
  - destruct (eqb k key) eqn:E; [|now apply IH].
    apply eqb_eq in E. subst k. destruct Hn.
    change key with (fst (key, v)). now apply in_map.
Qed.

(** C10: the AI-path task extraction turns each object of the decoded array
    into a Task whose fields are the values found under "description",
    "assignee", "due_date" and "priority", whatever they are; a key that is
    missing gives the empty string, "Unassigned", the date seven days after
    a reading of the clock, and "Medium".  A well-formed response therefore
    yields a Task whose assignee is no attendee and not "Unassigned" and
    whose priority is none of High, Medium and Low. *)
Theorem C10_ai_tasks_taken_verbatim (transcript : str)
    (attendees : list str) (key : str) (w : world) :
  (forall resp objs,
     service_answers GenerativeModel generate_content resp ->
     json_loads (unfenced resp) = Some (PList (map PDict objs)) ->
     exists tasks w',
       tasks_ai transcript attendees key w = (Ok tasks, w')
       /\ warnings w' = warnings w
       /\ Forall2 (fun entries t =>
                     exists k,
                       t = ai_task (Date.strftime_ymd (clock k + 7)) entries)
            objs tasks)
  /\ (forall entries field v default,
        NoDup (map fst entries) -> In (field, v) entries ->
        dict_get entries field default = v)
  /\ (forall entries field default,
        (forall v, ~ In (field, v) entries) ->
        dict_get entries field default = default)
  /\ (let names := [lit "Alice"; lit "Bob"] in
      let resp :=
        lit "[{" ++ dq ++ lit "assignee" ++ dq ++ lit ": " ++ dq
        ++ lit "Mallory" ++ dq ++ lit ", " ++ dq ++ lit "priority" ++ dq
        ++ lit ": " ++ dq ++ lit "Whenever" ++ dq ++ lit "}]" in
      exists t,
        extract_tasks_ai (fun _ => 20760%Z) (fun _ _ => Ok tt) (fun _ _ => Ok tt)
          (fun _ _ => Ok resp) JsonBasic.json_loads_basic
          (lit "Bob: hello") names (lit "key") (mkWorld 0 0 [])
        = (Ok [t], mkWorld 2 3 [])
        /\ assignee t = PStr (lit "Mallory")
        /\ ~ In (lit "Mallory") (lit "Unassigned" :: names)
        /\ priority t = PStr (lit "Whenever")
        /\ ~ In (lit "Whenever") [lit "High"; lit "Medium"; lit "Low"]
        /\ description t = PStr []
        /\ due_date t = PStr (lit "2026-11-10")).
Proof.
  split.
  { intros resp objs Ha Hj.
    destruct (tasks_ai_on_answer transcript attendees key resp w Ha)
      as (w1 & N & E).
    rewrite Hj in E. cbn [py_iter] in E.
    destruct (tasks_ai_loop_dicts objs [] w1) as (ts & w' & El & Nl & F).
    rewrite El in E. exists ts, w'. split; [exact E|]. split; [congruence|].
    exact F. }
  split; [intros; now apply dict_get_found|].
  split; [intros; now apply dict_get_default|].
  cbv zeta. eexists. split; [reflexivity|].
  repeat split; simpl; intuition discriminate.
Qed.

End AIPath.

(** ** The saved meetings *)

Lemma eqb_refl (a : str) : eqb a a = true.
Proof. now apply eqb_eq. Qed.

Lemma eqb_sym (a b : str) : eqb a b = eqb b a.
Proof.
  destruct (eqb a b) eqn:E.
  - apply eqb_eq in E. subst. symmetry. apply eqb_refl.
  - destruct (eqb b a) eqn:E'; [|reflexivity].
    apply eqb_eq in E'. subst. now rewrite eqb_refl in E.
Qed.

Lemma filter_filter {A : Type} (P Q : A -> bool) (l : list A) :
  filter P (filter Q l) = filter (fun x => Q x && P x) l.
Proof.
  induction l as [|x l IH]; [reflexivity|]. simpl.
  destruct (Q x); simpl; [destruct (P x)|]; now rewrite IH.
Qed.

Lemma save_meeting_one (m : Meeting) (saved : list Meeting) :
  filter (has_id (id m)) (save_meeting m saved) = [m].
Proof.
  unfold save_meeting. rewrite filter_app, filter_filter. cbn [filter].
  unfold has_id. rewrite eqb_refl.
  rewrite (filter_ext _ (fun _ => false)); [|intros x; apply andb_negb_l].
  now induction saved.
Qed.

Lemma save_meeting_others (m : Meeting) (saved : list Meeting) :
  filter (fun x => negb (has_id (id m) x)) (save_meeting m saved)
  = filter (fun x => negb (has_id (id m) x)) saved.
Proof.
  unfold save_meeting. rewrite filter_app, filter_filter. cbn [filter].
  unfold has_id. rewrite eqb_refl. cbn [negb]. rewrite app_nil_r.
  apply filter_ext. intros x. now destruct (eqb (id x) (id m)).
Qed.

Lemma save_meeting_new (m : Meeting) (saved : list Meeting) :
  existsb (has_id (id m)) saved = false -> save_meeting m saved = saved ++ [m].
Proof.
  intros H. unfold save_meeting. f_equal.
  induction saved as [|x saved IH]; [reflexivity|]. cbn [existsb filter] in *.
  apply orb_false_iff in H as [Hx H]. unfold has_id in Hx. rewrite Hx.
  cbn [negb]. now rewrite IH.
Qed.

(** After a sequence of saves, the list holds what is left of the old
    records, then the latest record of each id in the order of the saves. *)
Lemma saves_latest (saves saved : list Meeting) :
  fold_left (fun s m => save_meeting m s) saves saved
  = filter (fun x => negb (existsb (has_id (id x)) saves)) saved
    ++ latest saves.
Proof.
  revert saved. induction saves as [|m rest IH]; intros saved.
  - simpl. rewrite app_nil_r. induction saved; simpl; congruence.
  - cbn [fold_left]. rewrite IH. unfold save_meeting.
    rewrite filter_app, filter_filter, <- app_assoc. f_equal.
    + apply filter_ext. intros x. cbn [existsb]. unfold has_id at 2.
      rewrite (eqb_sym (id m) (id x)), negb_orb. reflexivity.
    + cbn [filter latest]. now destruct (existsb (has_id (id m)) rest).
Qed.

(** C9: saving a meeting leaves exactly one record with its id in the list,
    the meeting itself, so that of two saves under one id the second
    remains; the other records stay as they were, in their order; a meeting
    whose id is not in the list yet is appended at the end; and the list that
    a sequence of saves builds from the empty one holds the latest record of
    each id, in the order in which these were saved. *)
Theorem C9_save_meeting_upserts (m : Meeting) (saved : list Meeting) :
  filter (has_id (id m)) (save_meeting m saved) = [m]
  /\ (forall m2, id m2 = id m ->
        filter (has_id (id m)) (save_meeting m2 (save_meeting m saved))
        = [m2])
  /\ filter (fun x => negb (has_id (id m) x)) (save_meeting m saved)
     = filter (fun x => negb (has_id (id m) x)) saved
  /\ (existsb (has_id (id m)) saved = false ->
      save_meeting m saved = saved ++ [m])
  /\ (forall saves,
        fold_left (fun s x => save_meeting x s) saves [] = latest saves)
  /\ (forall saves,
        NoDup (map id saves) ->
        fold_left (fun s x => save_meeting x s) saves [] = saves).
Proof.
  split; [apply save_meeting_one|].
  split; [intros m2 E; rewrite <- E; apply save_meeting_one|].
  split; [apply save_meeting_others|].
  split; [apply save_meeting_new|].
  split; [intros saves; now rewrite saves_latest|].
  intros saves N. rewrite saves_latest. simpl.
  induction saves as [|x rest IH]; [reflexivity|].
  simpl in N. inversion N as [|? ? Hn N']; subst. cbn [latest].
  destruct (existsb (has_id (id x)) rest) eqn:E.
  - apply existsb_exists in E as (y & Hy & Ey). apply eqb_eq in Ey.
    destruct Hn. rewrite <- Ey. now apply in_map.
  - now rewrite IH.
Qed.

Section SaveHandler.

Variable clock : nat -> Z.
Variable set_order : list str -> list str.
Variable genai_configure : nat -> str -> result unit.
Variable GenerativeModel : nat -> str -> result unit.
Variable generate_content : nat -> str -> result str.
Variable json_loads : str -> option pyval.

Lemma process_meeting_id (use_ai : bool) (key text : str) (names : list str)
    (meeting m' : Meeting) (w w' : world) :
  process_meeting clock set_order genai_configure GenerativeModel
    generate_content json_loads use_ai key text names meeting w = (Ok m', w')
  -> id m' = id meeting.
Proof.
  unfold process_meeting, bind, ret.
  destruct (use_ai && truthy (PStr key)).
  - destruct (extract_summary_ai _ _ _ _ _ _) as [[sm|e] w1]; [|discriminate].
    destruct (extract_tasks_ai _ _ _ _ _ _ _ _ _) as [[ts|e] w2];
      [|discriminate].
    destruct (extract_decisions_ai _ _ _ _ _ _ _) as [[ds|e] w3];
      [|discriminate].
    intros E. inversion E. reflexivity.
  - destruct (extract_tasks_fallback _ _ _ _) as [[ts|e] w1]; [|discriminate].
    intros E. inversion E. reflexivity.
Qed.

(** The save handler commits the open meeting, under its own id, with
    [save_meeting]. *)
Lemma on_save_commits (use_ai : bool) (text : str) (names : list str)
    (st st' : session) (meeting : Meeting) (w w' : world) :
  current_meeting st = Some meeting ->
  on_save clock set_order genai_configure GenerativeModel generate_content
    json_loads use_ai text names st w = (Ok st', w') ->
  exists m',
    id m' = id meeting
    /\ current_meeting st' = Some m'
    /\ meetings st' = save_meeting m' (meetings st)
    /\ filter (has_id (id meeting)) (meetings st') = [m'].
Proof.
  intros Hc. unfold on_save. rewrite Hc. unfold bind, ret.
  destruct (negb (truthy (PStr (summary (set_transcript meeting text))))).
  - destruct (process_meeting _ _ _ _ _ _ _ _ _ _ _ _) as [[m'|e] w1] eqn:E;
      [|discriminate].
    apply process_meeting_id in E. intros H. inversion H. subst.
    exists m'. cbn [current_meeting meetings]. repeat split; trivial.
    change (id meeting) with (id (set_transcript meeting text)).
    rewrite <- E. apply save_meeting_one.
  - intros H. inversion H. subst.
    exists (set_transcript meeting text).
    cbn [current_meeting meetings]. repeat split.
    change (id meeting) with (id (set_transcript meeting text)).
    apply save_meeting_one.
Qed.

End SaveHandler.

(** Two saves under one id, between them a save under another. *)
Example save_twice :
  let m1 := mkMeeting (lit "20240115093000") (lit "Team Meeting")
              (lit "2024-01-15") 30 [lit "Alice"] [] [] [] [] (PList []) in
  let m2 := mkMeeting (lit "20240116100000") (lit "Client Call")
              (lit "2024-01-16") 45 [lit "Bob"] [] [] [] [] (PList []) in
  let m1' := mkMeeting (lit "20240115093000") (lit "Team Meeting")
               (lit "2024-01-15") 30 [lit "Alice"] (lit "Alice: done")
               (lit "Meeting covered 1 discussion points") [] []
               (PList []) in
  save_meeting m1' (save_meeting m2 (save_meeting m1 [])) = [m2; m1'].
Proof. reflexivity. Qed.

(** ** Further properties of the fallback extractors *)

Lemma strip_blank (text : str) : blank text = true -> strip text = [].
Proof. intros H. unfold strip. now rewrite (lstrip_all_blank text H). Qed.

Lemma lstrip_head (text : str) :
  lstrip text = [] \/ exists c r, lstrip text = c :: r /\ isspace c = false.
Proof.
  induction text as [|c text IH]; [now left|]. simpl.
  destruct (isspace c) eqn:E; [exact IH|]. right. now exists c, text.
Qed.

Lemma lstrip_keeps_last (u : str) (c : ascii) :
  isspace c = false -> exists v, lstrip (u ++ [c]) = v ++ [c].
Proof.
  intros Hc. induction u as [|b u (v & IH)]; simpl.
  - rewrite Hc. now exists [].
  - destruct (isspace b); [now exists v|]. now exists (b :: u).
Qed.

Lemma rstrip_keeps_head (c : ascii) (r : str) :
  isspace c = false -> exists v, rstrip (c :: r) = c :: v.
Proof.
  intros Hc. unfold rstrip. simpl.
  destruct (lstrip_keeps_last (rev r) c Hc) as (v & ->).
  exists (rev v). now rewrite rev_app_distr.
Qed.

(** A stripped text is empty or starts with a character that is no white
    space. *)
Lemma strip_head (text : str) :
  strip text = [] \/ exists c r, strip text = c :: r /\ isspace c = false.
Proof.
  unfold strip. destruct (lstrip_head text) as [->|(c & r & -> & Hc)].
  - now left.
  - right. destruct (rstrip_keeps_head c r Hc) as (v & ->). now exists c, v.
Qed.

Lemma lstrip_lstrip (text : str) : lstrip (lstrip text) = lstrip text.
Proof.
  destruct (lstrip_head text) as [->|(c & r & -> & Hc)]; [reflexivity|].
  simpl. now rewrite Hc.
Qed.

Lemma strip_strip (text : str) : strip (strip text) = strip text.
Proof.
  assert (L : lstrip (strip text) = strip text).
  { destruct (strip_head text) as [->|(c & r & -> & Hc)]; [reflexivity|].
    simpl. now rewrite Hc. }
  unfold strip at 1. rewrite L. unfold strip, rstrip.
  now rewrite rev_involutive, lstrip_lstrip.
Qed.

Lemma firstn_lstrip (n : nat) (text : str) :
  lstrip (firstn n (strip text)) = firstn n (strip text).
Proof.
  destruct (strip_head text) as [->|(c & r & -> & Hc)].
  - now rewrite firstn_nil.
  - destruct n; [reflexivity|]. simpl. now rewrite Hc.
Qed.

Lemma Forall2_Forall_r {A B : Type} (R : A -> B -> Prop) (P : B -> Prop)
    (l : list A) (l' : list B) :
  (forall a b, R a b -> P b) -> Forall2 R l l' -> Forall P l'.
Proof. intros H. induction 1; constructor; eauto. Qed.

Lemma assignee_loop_in (line line_lower : str) (attendees : list str)
    (default : str) :
  In (assignee_loop line line_lower attendees default) (default :: attendees).
Proof.
  induction attendees as [|att rest IH]; [now left|]. cbn [assignee_loop].
  destruct (_ || _); [right; now left|].
  destruct IH as [IH|IH]; [now left|right; now right].
Qed.

(** The loop reads the clock once or twice per Task, and does nothing else
    to the world. *)
Lemma tasks_loop_world (clock : nat -> Z) (attendees lines : list str) :
  forall (acc : list Task) (w : world),
  exists ts w',
    tasks_loop clock attendees lines acc w = (Ok (acc ++ ts), w')
    /\ notices w' = notices w
    /\ service_calls w' = service_calls w
    /\ clock_reads w + List.length ts <= clock_reads w'
       <= clock_reads w + 2 * List.length ts.
Proof.
  induction lines as [|line lines IH]; intros acc w.
  - exists [], w. rewrite app_nil_r. simpl. repeat split; lia.
  - cbn [tasks_loop].
    destruct (existsb _ task_keywords); [|apply IH].
    unfold bind at 1.
    assert (D : exists d w1,
               task_due clock (lower line) w = (Ok d, w1)
               /\ notices w1 = notices w
               /\ service_calls w1 = service_calls w
               /\ clock_reads w + 1 <= clock_reads w1 <= clock_reads w + 2).
    { unfold task_due, bind, now, ret. cbv beta iota.
      destruct (contains (lit "tomorrow") (lower line));
        [|destruct (contains (lit "end of week") (lower line))];
        eexists _, _; (split; [reflexivity|]); simpl; repeat split; lia. }
    destruct D as (d & w1 & -> & N1 & S1 & C1).
    match goal with
    | |- context [tasks_loop _ _ _ (acc ++ [?t]) w1] =>
        destruct (IH (acc ++ [t]) w1) as (ts & w' & E & N & S & C);
        exists (t :: ts), w'
    end.
    rewrite E, <- app_assoc. simpl. repeat split; try congruence; lia.
Qed.

(** X1: a transcript that is empty or holds white space only yields the
    summary "Meeting covered 1 discussion points", no Task and no decision,
    and leaves the clock unread. *)
Theorem X1_blank_transcript (clock : nat -> Z)
    (set_order : list str -> list str) (transcript : str)
    (attendees : list str) (w : world) :
  blank transcript = true ->
  extract_summary_fallback set_order transcript
    = lit "Meeting covered 1 discussion points"
  /\ extract_tasks_fallback clock transcript attendees w = (Ok [], w)
  /\ extract_decisions_fallback transcript = [].
Proof.
  intros H. unfold extract_summary_fallback, extract_tasks_fallback,
    extract_decisions_fallback.
  rewrite (strip_blank transcript H). repeat split.
Qed.

Lemma X1_blank_transcript_witness :
  extract_summary_fallback (fun l => l) (lit "  ")
    = lit "Meeting covered 1 discussion points"
  /\ extract_tasks_fallback (fun _ => 20760%Z) (lit "  ") [lit "Bob"]
       (mkWorld 0 0 []) = (Ok [], mkWorld 0 0 [])
  /\ extract_decisions_fallback (lit "  ") = [].
Proof.
  apply (X1_blank_transcript (fun _ => 20760%Z) (fun l => l)). reflexivity.
Defined.

(** X2: every Task of the heuristic path is well formed: its status is
    "Pending", its priority is High, Medium or Low, its assignee is an
    attendee or "Unassigned", its description has at most 100 characters
    and no white space in front, and its due date is 1, 5 or 7 days after a
    reading of the clock. *)
Theorem X2_fallback_tasks_well_formed (clock : nat -> Z) (transcript : str)
    (attendees : list str) (w : world) :
  exists tasks w',
    extract_tasks_fallback clock transcript attendees w = (Ok tasks, w')
    /\ Forall
         (fun t =>
            status t = PStr (lit "Pending")
            /\ (exists p, priority t = PStr p
                          /\ In p [lit "High"; lit "Medium"; lit "Low"])
            /\ (exists a, assignee t = PStr a
                          /\ In a (lit "Unassigned" :: attendees))
            /\ (exists d, description t = PStr d
                          /\ List.length d <= 100 /\ lstrip d = d)
            /\ (exists k days,
                  due_date t = PStr (Date.strftime_ymd (clock k + days))
                  /\ In days [1; 5; 7]%Z))
         tasks.
Proof.
  destruct (tasks_loop_run clock attendees (transcript_lines transcript) [] w)
    as (ts & w' & E & F & _).
  exists ts, w'. split; [exact E|].
  revert F. apply Forall2_Forall_r. intros line t [k ->].
  cbn [status priority assignee description due_date new_Task].
  split; [reflexivity|]. split.
  { eexists. split; [reflexivity|]. unfold task_priority.
    destruct (_ || _); [simpl; tauto|]. destruct (_ || _); simpl; tauto. }
  split.
  { eexists. split; [reflexivity|]. apply assignee_loop_in. }
  split.
  { eexists. split; [reflexivity|]. split.
    - apply firstn_le_length.
    - apply firstn_lstrip. }
  exists k, (due_days line). split; [reflexivity|]. unfold due_days.
  destruct (mentions _ line); [simpl; tauto|].
  destruct (mentions _ line); simpl; tauto.
Qed.

(** X3: the summary reports a number N of discussion points that is at least
    1, and the heuristic path returns at most N Tasks and at most N
    decisions. *)
Theorem X3_fallback_counts_bounded (clock : nat -> Z)
    (set_order : list str -> list str) (transcript : str)
    (attendees : list str) (w : world) :
  exists n rest tasks w',
    1 <= n
    /\ extract_summary_fallback set_order transcript
       = lit "Meeting covered " ++ of_nat n ++ lit " discussion points"
         ++ rest
    /\ extract_tasks_fallback clock transcript attendees w = (Ok tasks, w')
    /\ List.length tasks <= n
    /\ List.length (extract_decisions_fallback transcript) <= n.
Proof.
  destruct (tasks_loop_run clock attendees (transcript_lines transcript) [] w)
    as (ts & w' & E & F & _).
  exists (List.length (transcript_lines transcript)).
  unfold extract_summary_fallback. fold (transcript_lines transcript).
  destruct (fold_left summary_step (transcript_lines transcript) [])
    as [|x topics].
  - exists [], ts, w'. rewrite app_nil_r. repeat split; trivial.
    + unfold transcript_lines.
      pose proof (split_not_nil newline (strip transcript)).
      destruct (split newline (strip transcript)); [easy|simpl; lia].
    + rewrite <- (Forall2_length F). apply filter_length_le.
    + unfold extract_decisions_fallback. fold (transcript_lines transcript).
      rewrite decisions_loop. cbn [app]. rewrite length_map.
      apply filter_length_le.
  - eexists _, ts, w'. rewrite <- !app_assoc. repeat split; trivial.
    + unfold transcript_lines.
      pose proof (split_not_nil newline (strip transcript)).
      destruct (split newline (strip transcript)); [easy|simpl; lia].
    + rewrite <- (Forall2_length F). apply filter_length_le.
    + unfold extract_decisions_fallback. fold (transcript_lines transcript).
      rewrite decisions_loop. cbn [app]. rewrite length_map.
      apply filter_length_le.
Qed.

Lemma split_colon_free (sep : ascii) (text : str) :
  has_colon text = false ->
  forallb (fun line => negb (has_colon line)) (split sep text) = true.
Proof.
  induction text as [|c text IH]; [reflexivity|].
  rewrite has_colon_cons. intros H. apply orb_false_iff in H as [Hc H].
  specialize (IH H). rewrite (split_hd_tl sep text) in IH.
  cbn [forallb] in IH. apply andb_true_iff in IH as [Hh Ht].
  rewrite split_cons. destruct (Ascii.eqb c sep); cbn [forallb].
  - rewrite (split_hd_tl sep text). cbn [forallb]. now rewrite Hh, Ht.
  - rewrite has_colon_cons, Hc, Ht. cbn [orb]. now rewrite Hh.
Qed.

Lemma strip_colon_free (text : str) :
  has_colon text = false -> has_colon (strip text) = false.
Proof.
  intros H. destruct (has_colon (strip text)) eqn:E; [|reflexivity].
  destruct (strip_split text) as (a & b & _ & _ & Ht).
  rewrite Ht in H. unfold has_colon in *.
  rewrite (contains_app_r _ a _ (contains_app_l _ _ b E)) in H. discriminate.
Qed.

Lemma summary_loop_colon_free (lines topics : list str) :
  forallb (fun line => negb (has_colon line)) lines = true ->
  fold_left summary_step lines topics = topics.
Proof.
  revert topics. induction lines as [|line lines IH]; intros topics H;
    [reflexivity|].
  cbn [forallb] in H. apply andb_true_iff in H as [Hl H].
  apply negb_true_iff in Hl. cbn [fold_left]. rewrite IH by exact H.
  unfold summary_step. change (contains (lit ":") line) with (has_colon line).
  now rewrite Hl.
Qed.

(** X4: when the transcript holds no colon, the summary lists no topic,
    whatever words the lines contain: it is "Meeting covered N discussion
    points" for the N lines of the stripped transcript. *)
Theorem X4_summary_without_colon (set_order : list str -> list str)
    (transcript : str) :
  has_colon transcript = false ->
  extract_summary_fallback set_order transcript
  = lit "Meeting covered "
    ++ of_nat (List.length (transcript_lines transcript))
    ++ lit " discussion points".
Proof.
  intros H. unfold extract_summary_fallback.
  fold (transcript_lines transcript).
  rewrite summary_loop_colon_free; [reflexivity|].
  apply split_colon_free. now apply strip_colon_free.
Qed.

Lemma X4_summary_without_colon_witness :
  extract_summary_fallback (fun l => l)
    (lit "the budget is a problem" ++ newline :: lit "project deadline")
  = lit "Meeting covered "
    ++ of_nat (List.length
                 (transcript_lines
                    (lit "the budget is a problem"
                     ++ newline :: lit "project deadline")))
    ++ lit " discussion points".
Proof.
  apply (X4_summary_without_colon (fun l => l)). reflexivity.
Defined.

(** X5: the heuristic path keeps to itself: running the three extractions
    returns normally, shows no notice, makes no call into the Gemini
    library, and reads the clock at least once and at most twice per
    Task. *)
Theorem X5_fallback_path_is_local (clock : nat -> Z)
    (set_order : list str -> list str) (transcript : str)
    (attendees : list str) (w : world) :
  exists sm ts ds w',
    process_fallback clock set_order transcript attendees w
      = (Ok (sm, ts, ds), w')
    /\ notices w' = notices w
    /\ service_calls w' = service_calls w
    /\ clock_reads w + List.length ts <= clock_reads w'
       <= clock_reads w + 2 * List.length ts.
Proof.
  destruct (tasks_loop_world clock attendees (transcript_lines transcript)
              [] w) as (ts & w' & E & N & S & C).
  exists (extract_summary_fallback set_order transcript), ts,
    (extract_decisions_fallback transcript), w'.
  unfold process_fallback, bind, ret, extract_tasks_fallback.
  fold (transcript_lines transcript). rewrite E. now repeat split.
Qed.

(** X6: every decision of the heuristic path is trimmed: it has no white
    space at either end. *)
Theorem X6_fallback_decisions_trimmed (transcript : str) :
  Forall trimmed (extract_decisions_fallback transcript).
Proof.
  unfold extract_decisions_fallback. rewrite decisions_loop. cbn [app].
  apply Forall_map, Forall_forall. intros line _. apply strip_strip.
Qed.

(** *** Letter case *)

Lemma lower_char_newline (c : ascii) :
  Ascii.eqb (lower_char c) newline = Ascii.eqb c newline.
Proof. destruct c as [[] [] [] [] [] [] [] []]; reflexivity. Qed.

Lemma split_lower (text : str) :
  split newline (lower text) = map lower (split newline text).
Proof.
  induction text as [|c text IH]; [reflexivity|].
  change (lower (c :: text)) with (lower_char c :: lower text).
  rewrite !split_cons, lower_char_newline, IH.
  destruct (Ascii.eqb c newline); [reflexivity|].
  now destruct (split newline text).
Qed.

Lemma lstrip_lower (text : str) : lstrip (lower text) = lower (lstrip text).
Proof.
  induction text as [|c text IH]; [reflexivity|]. simpl.
  rewrite isspace_lower_char. now destruct (isspace c).
Qed.

Lemma strip_lower (text : str) : strip (lower text) = lower (strip text).
Proof.
  unfold strip, rstrip, lower.
  fold (lower text). rewrite lstrip_lower. unfold lower.
  rewrite <- map_rev. fold (lower (rev (lstrip text))).
  rewrite lstrip_lower. unfold lower. now rewrite map_rev.
Qed.

Lemma lines_lower (t1 t2 : str) :
  lower t1 = lower t2 ->
  map lower (transcript_lines t1) = map lower (transcript_lines t2).
Proof.
  intros H. unfold transcript_lines.
  now rewrite <- !split_lower, <- !strip_lower, H.
Qed.

Lemma map_filter_lower {B : Type} (sel : str -> bool) (f : str -> B) :
  (forall a b, lower a = lower b -> sel a = sel b) ->
  (forall a b, lower a = lower b -> f a = f b) ->
  forall l1 l2,
    map lower l1 = map lower l2 ->
    map f (filter sel l1) = map f (filter sel l2).
Proof.
  intros Hs Hf. induction l1 as [|a l1 IH]; intros [|b l2] H;
    try discriminate; [reflexivity|].
  simpl in H. inversion H as [[Hab Hl]]. cbn [filter].
  rewrite (Hs a b Hab). destruct (sel b); [|now apply IH].
  cbn [map]. rewrite (Hf a b Hab). f_equal. now apply IH.
Qed.

(** X7: the choice of the lines, the priority and the due date do not look
    at letter case: two transcripts that agree once lower-cased yield, with
    a fixed clock, the same number of Tasks, with the same priorities and
    due dates in the same order. *)
Theorem X7_fallback_tasks_ignore_case (clock : nat -> Z) (today : Z)
    (t1 t2 : str) (attendees : list str) (w1 w2 : world) :
  fixed_clock clock today ->
  lower t1 = lower t2 ->
  exists ts1 ts2 w1' w2',
    extract_tasks_fallback clock t1 attendees w1 = (Ok ts1, w1')
    /\ extract_tasks_fallback clock t2 attendees w2 = (Ok ts2, w2')
    /\ List.length ts1 = List.length ts2
    /\ map priority ts1 = map priority ts2
    /\ map due_date ts1 = map due_date ts2.
Proof.
  intros Hc H.
  destruct (tasks_fixed_clock clock today t1 attendees w1 Hc) as (w1' & E1 & _).
  destruct (tasks_fixed_clock clock today t2 attendees w2 Hc) as (w2' & E2 & _).
  eexists _, _, w1', w2'. split; [exact E1|]. split; [exact E2|].
  pose proof (lines_lower t1 t2 H) as L.
  assert (S : forall a b, lower a = lower b ->
                mentions task_triggers a = mentions task_triggers b).
  { intros a b Hab. unfold mentions. now rewrite Hab. }
  split.
  { rewrite !length_map, <- (length_map (fun _ => tt)).
    rewrite <- (length_map (fun _ => tt) (filter _ (transcript_lines t2))).
    f_equal. now apply map_filter_lower. }
  rewrite !map_map.
  split; apply map_filter_lower; trivial; intros a b Hab;
    cbn [priority due_date task_on new_Task].
  - unfold priority_rule, mentions. now rewrite Hab.
  - unfold due_days, mentions. now rewrite Hab.
Qed.

Lemma X7_fallback_tasks_ignore_case_witness :
  exists ts1 ts2 w1' w2',
    extract_tasks_fallback (fun _ => 20760%Z) (lit "BOB: I WILL DO IT ASAP")
      [lit "Bob"] (mkWorld 0 0 []) = (Ok ts1, w1')
    /\ extract_tasks_fallback (fun _ => 20760%Z)
         (lit "bob: i will do it asap") [lit "Bob"] (mkWorld 0 0 [])
       = (Ok ts2, w2')
    /\ List.length ts1 = List.length ts2
    /\ map priority ts1 = map priority ts2
    /\ map due_date ts1 = map due_date ts2.
Proof.
  apply (X7_fallback_tasks_ignore_case (fun _ => 20760%Z) 20760%Z).
  - intros k. reflexivity.
  - reflexivity.
Defined.

(** ** Further properties of the AI path *)

Lemma lstrip_solid_iff (text : str) :
  starts_solid text = true -> lstrip text = text.
Proof.
  destruct text as [|c r]; [reflexivity|]. simpl. intros H.
  apply negb_true_iff in H. now rewrite H.
Qed.

Lemma starts_solid_lstrip (text : str) : starts_solid (lstrip text) = true.
Proof.
  destruct (lstrip_head text) as [->|(c & r & -> & Hc)]; [reflexivity|].
  simpl. now rewrite Hc.
Qed.

Lemma starts_solid_app (x y : str) :
  starts_solid (x ++ y) = true -> x <> [] -> starts_solid x = true.
Proof. destruct x; [easy|]. now intros H _. Qed.

Lemma strip_of_solid (text : str) :
  starts_solid text = true -> starts_solid (rev text) = true ->
  strip text = text.
Proof.
  intros H1 H2. unfold strip, rstrip.
  rewrite (lstrip_solid_iff text H1), (lstrip_solid_iff _ H2).
  apply rev_involutive.
Qed.

Lemma strip_ends_solid (text : str) :
  starts_solid (strip text) = true /\ starts_solid (rev (strip text)) = true.
Proof.
  split.
  - destruct (strip_head text) as [->|(c & r & -> & Hc)]; [reflexivity|].
    simpl. now rewrite Hc.
  - unfold strip, rstrip. rewrite rev_involutive. apply starts_solid_lstrip.
Qed.

(** The two substitutions keep a text free of white space at its ends. *)
Lemma sub_leading_fence_solid (text : str) :
  starts_solid text = true -> starts_solid (rev text) = true ->
  starts_solid (sub_leading_fence text) = true
  /\ starts_solid (rev (sub_leading_fence text)) = true.
Proof.
  intros H1 H2. unfold sub_leading_fence.
  destruct (startswith (lit "```json") text); [|now split].
  split; [apply starts_solid_lstrip|].
  destruct (lstrip_split (skipn 7 text)) as (a & _ & E).
  destruct (lstrip (skipn 7 text)) as [|c r] eqn:L; [reflexivity|].
  rewrite <- (firstn_skipn 7 text), E, !rev_app_distr, <- app_assoc in H2.
  apply starts_solid_app in H2; [exact H2|].
  simpl. now destruct (rev r).
Qed.

Lemma sub_trailing_fence_solid (text : str) :
  starts_solid text = true -> starts_solid (rev text) = true ->
  starts_solid (sub_trailing_fence text) = true
  /\ starts_solid (rev (sub_trailing_fence text)) = true.
Proof.
  intros H1 H2. unfold sub_trailing_fence.
  destruct (startswith (lit "```") (rev text)).
  - split; [|rewrite rev_involutive; apply starts_solid_lstrip].
    destruct (lstrip_split (skipn 3 (rev text))) as (a & _ & E).
    destruct (lstrip (skipn 3 (rev text))) as [|c r] eqn:L; [reflexivity|].
    rewrite <- (rev_involutive text), <- (firstn_skipn 3 (rev text)), E,
      !rev_app_distr, <- app_assoc in H1.
    apply starts_solid_app in H1; [exact H1|].
    simpl. now destruct (rev r).
  - destruct (startswith (newline :: lit "```") (rev text)) eqn:E;
      [|now split].
    destruct (rev text) as [|c r]; [discriminate|]. cbn [startswith] in E.
    apply andb_true_iff in E as [E _]. apply Ascii.eqb_eq in E. subst c.
    discriminate.
Qed.

(** X8: the text handed to the JSON decoder is trimmed: whatever the
    service answers, stripping it and taking off the fences leaves no white
    space at either end. *)
Theorem X8_unfenced_is_trimmed (response : str) : trimmed (unfenced response).
Proof.
  unfold trimmed, unfenced.
  destruct (strip_ends_solid response) as [H1 H2].
  destruct (sub_leading_fence_solid _ H1 H2) as [H3 H4].
  destruct (sub_trailing_fence_solid _ H3 H4) as [H5 H6].
  now apply strip_of_solid.
Qed.

Section AIPathMore.

Variable clock : nat -> Z.
Variable genai_configure : nat -> str -> result unit.
Variable GenerativeModel : nat -> str -> result unit.
Variable generate_content : nat -> str -> result str.
Variable json_loads : str -> option pyval.

Abbreviation summary_ai' := (extract_summary_ai genai_configure
                              GenerativeModel generate_content).
Abbreviation tasks_ai' := (extract_tasks_ai clock genai_configure
                            GenerativeModel generate_content json_loads).
Abbreviation decisions_ai' := (extract_decisions_ai genai_configure
                                GenerativeModel generate_content json_loads).

Lemma decisions_ai_quiet (transcript key : str) (w : world) :
  exists ds w',
    decisions_ai' transcript key w = (Ok ds, w')
    /\ warnings w' = warnings w.
Proof.
  unfold extract_decisions_ai.
  destruct (init_gemini_run genai_configure key w) as (b & w0 & E0 & _ & N0).
  rewrite (try_except_bind _ _ _ b w w0 E0).
  unfold try_except, bind, get_gemini_model, call, raise, ret.
  destruct (GenerativeModel _ _) as [[]|e]; [|now eexists _, _].
  cbn [service_calls clock_reads notices].
  destruct (generate_content _ _) as [resp|e]; [|now eexists _, _].
  destruct (json_loads _) as [v|]; now eexists _, _.
Qed.

Lemma decisions_ai_on_answer (transcript key resp : str) (w : world) :
  service_answers GenerativeModel generate_content resp ->
  returned (decisions_ai' transcript key w)
  = Some (match json_loads (unfenced resp) with
          | Some v => v
          | None => PList []
          end).
Proof.
  intros [Hm H]. unfold extract_decisions_ai.
  destruct (init_gemini_run genai_configure key w) as (b & w0 & E0 & _).
  rewrite (try_except_bind _ _ _ b w w0 E0).
  unfold try_except, bind, get_gemini_model, call, raise, ret, returned.
  rewrite Hm, H. fold (unfenced resp).
  now destruct (json_loads (unfenced resp)).
Qed.

Lemma decisions_ai_on_failure (transcript key : str) (e : exn) (w : world) :
  service_fails GenerativeModel generate_content e ->
  returned (decisions_ai' transcript key w) = Some (PList []).
Proof.
  intros H. unfold extract_decisions_ai.
  destruct (init_gemini_run genai_configure key w) as (b & w0 & E0 & _).
  rewrite (try_except_bind _ _ _ b w w0 E0).
  unfold try_except, bind, get_gemini_model, call, raise, ret, returned.
  destruct H as [Hm|[Hm H]]; rewrite Hm; [reflexivity|]. now rewrite H.
Qed.

(** X9: the AI-path decision extraction never raises and never shows a
    warning.  When the service fails, with any exception, or its answer does
    not decode, the result is the empty list; when the answer decodes, the
    result is the decoded value as it is, a list or not. *)
Theorem X9_decisions_ai_outcomes (transcript key : str) (w : world) :
  (exists ds w',
     decisions_ai' transcript key w = (Ok ds, w')
     /\ warnings w' = warnings w)
  /\ (forall e,
        service_fails GenerativeModel generate_content e ->
        returned (decisions_ai' transcript key w) = Some (PList []))
  /\ (forall resp,
        service_answers GenerativeModel generate_content resp ->
        json_loads (unfenced resp) = None ->
        returned (decisions_ai' transcript key w) = Some (PList []))
  /\ (forall resp v,
        service_answers GenerativeModel generate_content resp ->
        json_loads (unfenced resp) = Some v ->
        returned (decisions_ai' transcript key w) = Some v).
Proof.
  split; [apply decisions_ai_quiet|].
  split; [intros e; apply decisions_ai_on_failure|].
  split; intros resp.
  - intros Ha Hj. rewrite (decisions_ai_on_answer _ _ resp w Ha).
    now rewrite Hj.
  - intros v Ha Hj. rewrite (decisions_ai_on_answer _ _ resp w Ha).
    now rewrite Hj.
Qed.

(** The loop stops at the first element that is no object: behind any run
    of objects, such an element raises, whatever follows it. *)
Lemma tasks_ai_loop_stops (pre : list (list (str * pyval))) (x : pyval)
    (post : list pyval) :
  is_object x = false ->
  forall (acc : list Task) (w : world),
  exists w',
    tasks_ai_loop clock (map PDict pre ++ x :: post) acc w
    = (Raised (Exception_ (lit "AttributeError")
                 (lit "'" ++ type_name x
                  ++ lit "' object has no attribute 'get'")), w')
    /\ notices w' = notices w.
Proof.
  intros Hx. induction pre as [|entries pre IH]; intros acc w.
  - exists w. split; [|reflexivity]. cbn [map app tasks_ai_loop].
    destruct x; try discriminate; reflexivity.
  - cbn [map app tasks_ai_loop py_get]. unfold bind, lift, now.
    cbv beta iota.
    match goal with
    | |- context [tasks_ai_loop _ _ ?a ?w1] =>
        destruct (IH a w1) as (w' & E & N)
    end.
    exists w'. split; [exact E|exact N].
Qed.

(** X10: when the decoded array holds an element that is not an object, the
    AI-path task extraction returns no Task at all, also none for the objects
    in front of it, and shows the warning that names the attribute error of
    the first such element: the array is a run [pre] of objects, the element
    [x] that is none, and whatever follows. *)
Theorem X10_tasks_ai_all_or_nothing (transcript : str) (attendees : list str)
    (key resp : str) (pre : list (list (str * pyval))) (x : pyval)
    (post : list pyval) (w : world) :
  service_answers GenerativeModel generate_content resp ->
  json_loads (unfenced resp) = Some (PList (map PDict pre ++ x :: post)) ->
  is_object x = false ->
  exists w',
    tasks_ai' transcript attendees key w = (Ok [], w')
    /\ warnings w' =
       warnings w
       ++ [st_warning (lit "Task extraction error: '" ++ type_name x
                       ++ lit "' object has no attribute 'get'")].
Proof.
  intros Ha Hj Hx.
  destruct (tasks_ai_on_answer clock genai_configure GenerativeModel
              generate_content json_loads transcript attendees key resp w Ha)
    as (w1 & N & E).
  rewrite Hj in E. cbn [py_iter] in E.
  destruct (tasks_ai_loop_stops pre x post Hx [] w1) as (w2 & El & Nl).
  rewrite El in E. eexists. split; [exact E|].
  unfold warnings in *. cbn [notices].
  rewrite filter_app, Nl, N. reflexivity.
Qed.

(** X11: when the answer decodes to a value that cannot be iterated (null, a
    boolean or a number), the AI-path task extraction returns no Task and
    shows the warning that the value is not iterable. *)
Theorem X11_tasks_ai_not_iterable (transcript : str) (attendees : list str)
    (key resp : str) (v : pyval) (w : world) :
  service_answers GenerativeModel generate_content resp ->
  json_loads (unfenced resp) = Some v ->
  iterable v = false ->
  exists w',
    tasks_ai' transcript attendees key w = (Ok [], w')
    /\ warnings w' =
       warnings w
       ++ [st_warning (lit "Task extraction error: '" ++ type_name v
                       ++ lit "' object is not iterable")].
Proof.
  intros Ha Hj Hv.
  destruct (tasks_ai_on_answer clock genai_configure GenerativeModel
              generate_content json_loads transcript attendees key resp w Ha)
    as (w1 & N & E).
  rewrite Hj in E. eexists.
  destruct v; try discriminate; cbn [py_iter] in E;
    (split; [exact E|]); unfold warnings in *; cbn [notices];
    rewrite filter_app, N; reflexivity.
Qed.

(** X12: a failure of [genai.configure] does not stop the summary: when the
    model can still be made and answers, the summary is the stripped answer,
    the page shows "Failed to initialize Gemini: ..." and nothing else, three
    calls have gone into the library and the clock is left unread. *)
Theorem X12_configure_failure_not_fatal (transcript key resp : str) (e : exn)
    (w : world) :
  genai_configure (service_calls w) key = Raised e ->
  GenerativeModel (S (service_calls w)) (lit "gemini-2.0-flash") = Ok tt ->
  generate_content (S (S (service_calls w))) (summary_prompt transcript)
    = Ok resp ->
  summary_ai' transcript key w
  = (Ok (strip resp),
     mkWorld (clock_reads w) (S (S (S (service_calls w))))
       (notices w
        ++ [st_error (lit "Failed to initialize Gemini: " ++ exn_str e)])).
Proof.
  intros Hc Hm Hg.
  unfold extract_summary_ai, init_gemini, get_gemini_model, try_except, bind,
    call, show, ret.
  rewrite Hc. cbn [service_calls clock_reads notices]. rewrite Hm.
  cbn [service_calls clock_reads notices]. now rewrite Hg.
Qed.

End AIPathMore.

Lemma X10_tasks_ai_all_or_nothing_witness :
  exists w',
    extract_tasks_ai (fun _ => 20760%Z) (fun _ _ => Ok tt)
      (fun _ _ => Ok tt)
      (fun _ _ =>
         Ok (lit "[{" ++ dq ++ lit "assignee" ++ dq ++ lit ": " ++ dq
             ++ lit "Bob" ++ dq ++ lit "}, 5, {}]"))
      JsonBasic.json_loads_basic (lit "Bob: hello") [lit "Bob"] (lit "key")
      (mkWorld 0 0 []) = (Ok [], w')
    /\ warnings w' =
       warnings (mkWorld 0 0 [])
       ++ [st_warning (lit "Task extraction error: '" ++ type_name (PInt 5)
                       ++ lit "' object has no attribute 'get'")].
Proof.
  apply (X10_tasks_ai_all_or_nothing (fun _ => 20760%Z) (fun _ _ => Ok tt)
           (fun _ _ => Ok tt)
           (fun _ _ =>
              Ok (lit "[{" ++ dq ++ lit "assignee" ++ dq ++ lit ": " ++ dq
                  ++ lit "Bob" ++ dq ++ lit "}, 5, {}]"))
           JsonBasic.json_loads_basic (lit "Bob: hello") [lit "Bob"]
           (lit "key")
           (lit "[{" ++ dq ++ lit "assignee" ++ dq ++ lit ": " ++ dq
            ++ lit "Bob" ++ dq ++ lit "}, 5, {}]")
           [[(lit "assignee", PStr (lit "Bob"))]] (PInt 5) [PDict []]).
  - split; reflexivity.
  - reflexivity.
  - reflexivity.
Defined.

Lemma X11_tasks_ai_not_iterable_witness :
  exists w',
    extract_tasks_ai (fun _ => 20760%Z) (fun _ _ => Ok tt)
      (fun _ _ => Ok tt) (fun _ _ => Ok (lit "5"))
      JsonBasic.json_loads_basic (lit "Bob: hello") [lit "Bob"] (lit "key")
      (mkWorld 0 0 []) = (Ok [], w')
    /\ warnings w' =
       warnings (mkWorld 0 0 [])
       ++ [st_warning (lit "Task extraction error: '" ++ type_name (PInt 5)
                       ++ lit "' object is not iterable")].
Proof.
  apply (X11_tasks_ai_not_iterable (fun _ => 20760%Z) (fun _ _ => Ok tt)
           (fun _ _ => Ok tt) (fun _ _ => Ok (lit "5"))
           JsonBasic.json_loads_basic (lit "Bob: hello") [lit "Bob"]
           (lit "key") (lit "5")).
  - split; reflexivity.
  - reflexivity.
  - reflexivity.
Defined.

Lemma X12_configure_failure_not_fatal_witness :
  extract_summary_ai
    (fun _ _ => Raised (Exception_ (lit "ValueError") (lit "bad key")))
    (fun _ _ => Ok tt) (fun _ _ => Ok (lit " All went well. "))
    (lit "Bob: hello") (lit "key") (mkWorld 0 0 [])
  = (Ok (strip (lit " All went well. ")),
     mkWorld 0 3
       ([] ++ [st_error (lit "Failed to initialize Gemini: "
                         ++ exn_str (Exception_ (lit "ValueError")
                                       (lit "bad key")))])).
Proof.
  apply (X12_configure_failure_not_fatal
           (fun _ _ => Raised (Exception_ (lit "ValueError") (lit "bad key")))
           (fun _ _ => Ok tt) (fun _ _ => Ok (lit " All went well. "))
           (lit "Bob: hello") (lit "key") (lit " All went well. ")
           (Exception_ (lit "ValueError") (lit "bad key")) (mkWorld 0 0 []));
    reflexivity.
Defined.

(** ** Further properties of the saved meetings and of the handlers *)

Lemma filter_idem {A : Type} (P : A -> bool) (l : list A) :
  filter P (filter P l) = filter P l.
Proof.
  rewrite filter_filter. apply filter_ext. intros x. now destruct (P x).
Qed.

Lemma NoDup_snoc {A : Type} (l : list A) (x : A) :
  NoDup l -> ~ In x l -> NoDup (l ++ [x]).
Proof.
  intros N H. apply NoDup_app; trivial.
  - repeat constructor. easy.
  - intros y Hy [<-|[]]. now apply H.
Qed.

Lemma save_meeting_NoDup (m : Meeting) (saved : list Meeting) :
  NoDup (map id saved) -> NoDup (map id (save_meeting m saved)).
Proof.
  intros N. unfold save_meeting. rewrite map_app. apply NoDup_snoc.
  - now apply NoDup_map_filter.
  - intros H. apply in_map_iff in H as (x & E & Hx).
    apply filter_In in Hx as [_ Hx]. apply negb_true_iff in Hx.
    rewrite E, eqb_refl in Hx. discriminate.
Qed.

(** X13: the saved meetings never hold two records with one id: saving
    keeps the ids pairwise distinct, so every list built from the empty one
    by saves has pairwise distinct ids. *)
Theorem X13_saved_ids_distinct :
  (forall m saved,
     NoDup (map id saved) -> NoDup (map id (save_meeting m saved)))
  /\ (forall saves,
        NoDup (map id (fold_left (fun s m => save_meeting m s) saves []))).
Proof.
  split; [apply save_meeting_NoDup|].
  intros saves.
  assert (G : forall saved,
            NoDup (map id saved) ->
            NoDup (map id (fold_left (fun s m => save_meeting m s)
                             saves saved))).
  { induction saves as [|m rest IH]; intros saved N; [exact N|].
    cbn [fold_left]. apply IH. now apply save_meeting_NoDup. }
  apply G. constructor.
Qed.

(** X14: saving is idempotent and adds at most one record: saving a meeting
    again right after it has been saved changes nothing, and a save leaves
    the list with at least one and at most one more record than before. *)
Theorem X14_save_meeting_idempotent (m : Meeting) (saved : list Meeting) :
  save_meeting m (save_meeting m saved) = save_meeting m saved
  /\ 1 <= List.length (save_meeting m saved) <= S (List.length saved).
Proof.
  unfold save_meeting. split.
  - rewrite filter_app, filter_idem. cbn [filter]. rewrite eqb_refl.
    cbn [negb]. now rewrite app_nil_r.
  - rewrite length_app. cbn [List.length].
    pose proof (filter_length_le
                  (fun x => negb (eqb (id x) (id m))) saved). lia.
Qed.

Section HandlersMore.

Variable clock : nat -> Z.
Variable set_order : list str -> list str.
Variable genai_configure : nat -> str -> result unit.
Variable GenerativeModel : nat -> str -> result unit.
Variable generate_content : nat -> str -> result str.
Variable json_loads : str -> option pyval.
Variable py_str : pyval -> str.
Variable icon_summary : str.
Variable icon_decisions : str.
Variable icon_actions : str.
Variable icon_bullet : str.
Variable icon_attendees : str.
Variable icon_agent : str.

Abbreviation process := (process_meeting clock set_order genai_configure
                           GenerativeModel generate_content json_loads).
Variable icon_saved : str.

Abbreviation save := (on_save clock set_order genai_configure GenerativeModel
                        generate_content json_loads).
Abbreviation save_page := (save_pressed clock set_order genai_configure
                             GenerativeModel generate_content json_loads
                             icon_saved).
Abbreviation email_template :=
  (generate_followup_email_fallback py_str icon_summary icon_decisions
     icon_actions icon_bullet icon_attendees icon_agent).

Lemma truthy_text (text : str) : text <> [] -> truthy (PStr text) = true.
Proof.
  intros H. cbn [truthy]. destruct (eqb text []) eqn:E; [|reflexivity].
  now apply eqb_eq in E.
Qed.

Lemma on_save_with_summary (use_ai : bool) (text : str) (names : list str)
    (st : session) (m : Meeting) (w : world) :
  current_meeting st = Some m -> summary m <> [] ->
  save use_ai text names st w
  = (Ok (mkSession (save_meeting (set_transcript m text) (meetings st))
           (Some (set_transcript m text)) (is_recording st) (api_key st)),
     w).
Proof.
  intros Hc Hs. unfold on_save. rewrite Hc. unfold bind, ret.
  change (summary (set_transcript m text)) with (summary m).
  now rewrite (truthy_text _ Hs).
Qed.

Lemma save_pressed_with_summary (use_ai : bool) (text : str)
    (names : list str) (st : session) (m : Meeting) (w : world) :
  current_meeting st = Some m -> summary m <> [] ->
  save_page use_ai text names st w
  = (Ok (mkSession (save_meeting (set_transcript m text) (meetings st))
           (Some (set_transcript m text)) (is_recording st) (api_key st)),
     mkWorld (clock_reads w) (service_calls w)
       (notices w ++ [st_success (icon_saved ++ lit " Meeting saved!")])).
Proof.
  intros Hc Hs. unfold save_pressed. rewrite Hc. unfold bind at 1.
  now rewrite (on_save_with_summary use_ai text names st m w Hc Hs).
Qed.

(** X15: pressing Save on an open meeting that already has a summary runs no
    extraction: the clock is not read, no call goes into the library, and
    the only notice is the banner "Meeting saved!"; the record that is saved
    is the open meeting with the transcript of the page put in, its summary,
    Tasks and decisions untouched even if the transcript has changed. *)
Theorem X15_save_keeps_analysis (use_ai : bool) (text : str)
    (names : list str) (st : session) (m : Meeting) (w : world) :
  current_meeting st = Some m -> summary m <> [] ->
  save_page use_ai text names st w
  = (Ok (mkSession (save_meeting (set_transcript m text) (meetings st))
           (Some (set_transcript m text)) (is_recording st) (api_key st)),
     mkWorld (clock_reads w) (service_calls w)
       (notices w ++ [st_success (icon_saved ++ lit " Meeting saved!")])).
Proof.
  intros Hc Hs. unfold save_pressed, on_save. rewrite Hc.
  unfold bind, ret, show.
  change (summary (set_transcript m text)) with (summary m).
  now rewrite (truthy_text _ Hs).
Qed.

(** X16: the assignments of the branch without AI always store a summary
    that is not empty; so pressing Save afterwards on the meeting they filled
    runs no extraction again: the saved record keeps the stored summary,
    Tasks and decisions, and the world gains the banner "Meeting saved!" and
    nothing else. *)
Theorem X16_fallback_process_then_save (key text : str) (names : list str)
    (meeting : Meeting) (w : world) :
  exists m' w',
    process false key text names meeting w = (Ok m', w')
    /\ summary m' = extract_summary_fallback set_order text
    /\ summary m' <> []
    /\ (forall use_ai text2 names2 st,
          current_meeting st = Some m' ->
          save_page use_ai text2 names2 st w'
          = (Ok (mkSession
                   (save_meeting (set_transcript m' text2) (meetings st))
                   (Some (set_transcript m' text2)) (is_recording st)
                   (api_key st)),
             mkWorld (clock_reads w') (service_calls w')
               (notices w'
                ++ [st_success (icon_saved ++ lit " Meeting saved!")]))).
Proof.
  destruct (tasks_loop_run clock names (transcript_lines text) [] w)
    as (ts & w' & E & _).
  eexists _, w'. split.
  { unfold process_meeting, bind, ret, extract_tasks_fallback.
    cbn [andb]. fold (transcript_lines text). now rewrite E. }
  split; [reflexivity|].
  assert (Hs : summary
                 (set_results meeting (extract_summary_fallback set_order text)
                    ts (PList (map PStr (extract_decisions_fallback text))))
               <> []).
  { cbn [summary set_results]. unfold extract_summary_fallback.
    now destruct (fold_left summary_step (split newline (strip text)) []). }
  split; [exact Hs|].
  intros use_ai text2 names2 st Hc.
  now apply save_pressed_with_summary.
Qed.

Lemma email_template_outcome (meeting : Meeting) (w : world) :
  (truthy (decisions meeting) && negb (iterable (decisions meeting)) = true ->
   email_template meeting w
   = (Raised (Exception_ (lit "TypeError")
                (lit "'" ++ type_name (decisions meeting)
                 ++ lit "' object is not iterable")), w))
  /\ (truthy (decisions meeting) && negb (iterable (decisions meeting))
      = false ->
      exists text, email_template meeting w = (Ok text, w)).
Proof.
  unfold generate_followup_email_fallback, bind, lift, ret, iterable.
  destruct (truthy (decisions meeting)); cbn [andb].
  - destruct (decisions meeting); cbn [py_iter negb type_name]; split;
      try discriminate; intros _; try reflexivity; now eexists.
  - split; [discriminate|]. intros _. now eexists.
Qed.

(** X17: the template email raises exactly when the decisions of the
    meeting are a true value that cannot be iterated, with the type error of
    the loop; in every other case it returns its text.  It leaves the world
    as it was either way. *)
Theorem X17_email_template_raises_iff (meeting : Meeting) (w : world) :
  (truthy (decisions meeting) && negb (iterable (decisions meeting)) = true ->
   email_template meeting w
   = (Raised (Exception_ (lit "TypeError")
                (lit "'" ++ type_name (decisions meeting)
                 ++ lit "' object is not iterable")), w))
  /\ (truthy (decisions meeting) && negb (iterable (decisions meeting))
      = false ->
      exists text, email_template meeting w = (Ok text, w)).
Proof.
  unfold generate_followup_email_fallback, bind, lift, ret, iterable.
  destruct (truthy (decisions meeting)); cbn [andb].
  - destruct (decisions meeting); cbn [py_iter negb type_name]; split;
      try discriminate; intros _; try reflexivity; now eexists.
  - split; [discriminate|]. intros _. now eexists.
Qed.

(** X18: the AI-path decisions can break the template email: when the
    service's answer decodes to a true value that cannot be iterated,
    processing with AI stores that value as the decisions of the meeting, and
    the template email for the processed meeting raises a type error. *)
Theorem X18_ai_decisions_break_template (key text resp : str)
    (names : list str) (meeting : Meeting) (v : pyval) (w : world) :
  key <> [] ->
  service_answers GenerativeModel generate_content resp ->
  json_loads (unfenced resp) = Some v ->
  truthy v && negb (iterable v) = true ->
  exists m' w',
    process true key text names meeting w = (Ok m', w')
    /\ decisions m' = v
    /\ email_template m' w'
       = (Raised (Exception_ (lit "TypeError")
                    (lit "'" ++ type_name v
                     ++ lit "' object is not iterable")), w').
Proof.
  intros Hk Ha Hj Hv. unfold process_meeting.
  rewrite (truthy_text key Hk). cbn [andb]. unfold bind.
  destruct (summary_ai_returns genai_configure GenerativeModel
              generate_content text key w) as (sm & w1 & ->).
  destruct (tasks_ai_returns clock genai_configure GenerativeModel
              generate_content json_loads text names key w1)
    as (ts & w2 & ->).
  pose proof (decisions_ai_on_answer genai_configure GenerativeModel
                generate_content json_loads text key resp w2 Ha) as D.
  destruct (decisions_ai_quiet genai_configure GenerativeModel
              generate_content json_loads text key w2) as (ds & w3 & E & _).
  rewrite E in *. unfold returned in D. cbn [fst] in D. rewrite Hj in D.
  inversion D. subst ds. eexists _, w3. split; [reflexivity|].
  split; [reflexivity|].
  apply (proj1 (email_template_outcome (set_results meeting sm ts v) w3)).
  exact Hv.
Qed.

End HandlersMore.

Lemma X15_save_keeps_analysis_witness :
  let m := mkMeeting (lit "20240115093000") (lit "Team Meeting")
             (lit "2024-01-15") 30 [lit "Alice"] (lit "Alice: hello")
             (lit "Meeting covered 1 discussion points") [] [] (PList []) in
  let st := mkSession [] (Some m) false [] in
  save_pressed (fun _ => 20760%Z) (fun l => l) (fun _ _ => Ok tt)
    (fun _ _ => Ok tt) (fun _ _ => Ok []) JsonBasic.json_loads_basic []
    false (lit "Alice: I will send the budget") [lit "Alice"] st
    (mkWorld 0 0 [])
  = (Ok (mkSession
           (save_meeting
              (set_transcript m (lit "Alice: I will send the budget"))
              (meetings st))
           (Some (set_transcript m (lit "Alice: I will send the budget")))
           (is_recording st) (api_key st)),
     mkWorld 0 0 ([] ++ [st_success ([] ++ lit " Meeting saved!")])).
Proof.
  cbv zeta.
  apply (X15_save_keeps_analysis (fun _ => 20760%Z) (fun l => l)
           (fun _ _ => Ok tt) (fun _ _ => Ok tt) (fun _ _ => Ok [])
           JsonBasic.json_loads_basic []).
  - reflexivity.
  - discriminate.
Defined.

Lemma X18_ai_decisions_break_template_witness :
  let meeting := mkMeeting (lit "20240115093000") (lit "Team Meeting")
                   (lit "2024-01-15") 30 [lit "Alice"] (lit "Alice: hello")
                   [] [] [] (PList []) in
  exists m' w',
    process_meeting (fun _ => 20760%Z) (fun l => l) (fun _ _ => Ok tt)
      (fun _ _ => Ok tt) (fun _ _ => Ok (lit "5"))
      JsonBasic.json_loads_basic true (lit "key") (lit "Alice: hello")
      [lit "Alice"] meeting (mkWorld 0 0 []) = (Ok m', w')
    /\ decisions m' = PInt 5
    /\ generate_followup_email_fallback (fun _ => []) [] [] [] [] [] [] m' w'
       = (Raised (Exception_ (lit "TypeError")
                    (lit "'" ++ type_name (PInt 5)
                     ++ lit "' object is not iterable")), w').
Proof.
  cbv zeta.
  apply (X18_ai_decisions_break_template (fun _ => 20760%Z) (fun l => l)
           (fun _ _ => Ok tt) (fun _ _ => Ok tt) (fun _ _ => Ok (lit "5"))
           JsonBasic.json_loads_basic (fun _ => []) [] [] [] [] [] []
           (lit "key") (lit "Alice: hello") (lit "5")).
  - discriminate.
  - split; reflexivity.
  - reflexivity.
  - reflexivity.
Defined.

Section TabsMore.

Variable clock : nat -> Z.
Variable set_order : list str -> list str.
Variable genai_configure : nat -> str -> result unit.
Variable GenerativeModel : nat -> str -> result unit.
Variable generate_content : nat -> str -> result str.
Variable json_loads : str -> option pyval.
Variable py_str : pyval -> str.
Variable icon_summary : str.
Variable icon_decisions : str.
Variable icon_actions : str.
Variable icon_bullet : str.
Variable icon_attendees : str.
Variable icon_agent : str.

(** X19: with AI in use and an API key set, the follow-up tab never raises:
    it returns no email when no meeting is open or the open meeting has no
    summary, and the answer of [generate_followup_email_ai] otherwise. *)
Theorem X19_followup_tab_with_ai (st : session) (w : world) :
  api_key st <> [] ->
  exists r w',
    followup_tab genai_configure GenerativeModel generate_content py_str
      icon_summary icon_decisions icon_actions icon_bullet icon_attendees
      icon_agent true st w = (Ok r, w')
    /\ match current_meeting st with
       | None => r = None /\ w' = w
       | Some meeting =>
           if eqb (summary meeting) [] then r = None /\ w' = w
           else exists text,
                  r = Some text
                  /\ generate_followup_email_ai genai_configure
                       GenerativeModel generate_content py_str meeting
                       (api_key st) w = (Ok text, w')
       end.
Proof.
  intros Hk. unfold followup_tab.
  destruct (current_meeting st) as [meeting|]; [|now exists None, w].
  cbn [truthy]. destruct (eqb (summary meeting) []); cbn [negb].
  - now exists None, w.
  - destruct (eqb (api_key st) []) eqn:E.
    { apply eqb_eq in E. contradiction. }
    cbn [negb andb]. unfold bind.
    destruct (email_ai_returns genai_configure GenerativeModel
                generate_content py_str meeting (api_key st) w)
      as (text & w' & E').
    rewrite E'. exists (Some text), w'. split; [reflexivity|].
    now exists text.
Qed.

(** X20: pressing Save with a meeting open always returns; it commits a
    meeting with the id of the open one, which becomes the open meeting,
    leaves exactly that record under the id in the list, keeps the other
    records in their order, and leaves the recording flag and the API key
    alone. *)
Theorem X20_save_commits_open_meeting (use_ai : bool) (text : str)
    (names : list str) (st : session) (meeting : Meeting) (w : world) :
  current_meeting st = Some meeting ->
  exists st' w' m',
    on_save clock set_order genai_configure GenerativeModel generate_content
      json_loads use_ai text names st w = (Ok st', w')
    /\ id m' = id meeting
    /\ transcript m' = text
    /\ current_meeting st' = Some m'
    /\ filter (has_id (id meeting)) (meetings st') = [m']
    /\ filter (fun x => negb (has_id (id meeting) x)) (meetings st')
       = filter (fun x => negb (has_id (id meeting) x)) (meetings st)
    /\ is_recording st' = is_recording st
    /\ api_key st' = api_key st.
Proof.
  intros Hc. unfold on_save. rewrite Hc. unfold bind, ret.
  destruct (negb (truthy (PStr (summary (set_transcript meeting text))))).
  - destruct (process_meeting_returns clock set_order genai_configure
                GenerativeModel generate_content json_loads use_ai
                (api_key st) text names (set_transcript meeting text) w)
      as (m' & w' & E).
    rewrite E. exists (mkSession (save_meeting m' (meetings st)) (Some m')
                         (is_recording st) (api_key st)), w', m'.
    assert (I : id m' = id meeting /\ transcript m' = text).
    { revert E. unfold process_meeting, bind, ret.
      destruct (use_ai && truthy (PStr (api_key st))).
      - destruct (extract_summary_ai _ _ _ _ _ _) as [[sm|e] w1];
          [|discriminate].
        destruct (extract_tasks_ai _ _ _ _ _ _ _ _ _) as [[ts|e] w2];
          [|discriminate].
        destruct (extract_decisions_ai _ _ _ _ _ _ _) as [[ds|e] w3];
          [|discriminate].
        intros E. inversion E. now split.
      - destruct (extract_tasks_fallback _ _ _ _) as [[ts|e] w1];
          [|discriminate].
        intros E. inversion E. now split. }
    destruct I as [Ii It]. cbn [current_meeting meetings is_recording api_key].
    rewrite <- Ii. repeat split; trivial.
    + apply save_meeting_one.
    + apply save_meeting_others.
  - exists (mkSession (save_meeting (set_transcript meeting text)
                         (meetings st))
              (Some (set_transcript meeting text)) (is_recording st)
              (api_key st)), w, (set_transcript meeting text).
    cbn [current_meeting meetings is_recording api_key].
    change (id meeting) with (id (set_transcript meeting text)).
    repeat split.
    + apply save_meeting_one.
    + apply save_meeting_others.
Qed.

End TabsMore.

Lemma X19_followup_tab_with_ai_witness :
  let st :=
    mkSession []
      (Some (mkMeeting (lit "20240115093000") (lit "Team Meeting")
               (lit "2024-01-15") 30 [lit "Alice"] (lit "Alice: hello")
               (lit "Meeting covered 1 discussion points") [] [] (PList [])))
      false (lit "key") in
  exists r w',
    followup_tab (fun _ _ => Ok tt) (fun _ _ => Ok tt)
      (fun _ _ => Ok (lit "Dear all")) (fun _ => []) [] [] [] [] [] [] true
      st (mkWorld 0 0 []) = (Ok r, w')
    /\ match current_meeting st with
       | None => r = None /\ w' = mkWorld 0 0 []
       | Some meeting =>
           if eqb (summary meeting) [] then r = None /\ w' = mkWorld 0 0 []
           else exists text,
                  r = Some text
                  /\ generate_followup_email_ai (fun _ _ => Ok tt)
                       (fun _ _ => Ok tt) (fun _ _ => Ok (lit "Dear all"))
                       (fun _ => []) meeting (api_key st) (mkWorld 0 0 [])
                     = (Ok text, w')
       end.
Proof.
  cbv zeta.
  apply (X19_followup_tab_with_ai (fun _ _ => Ok tt) (fun _ _ => Ok tt)
           (fun _ _ => Ok (lit "Dear all")) (fun _ => []) [] [] [] [] [] []
           (mkSession []
              (Some (mkMeeting (lit "20240115093000") (lit "Team Meeting")
                       (lit "2024-01-15") 30 [lit "Alice"]
                       (lit "Alice: hello")
                       (lit "Meeting covered 1 discussion points") [] []
                       (PList [])))
              false (lit "key")) (mkWorld 0 0 [])).
  discriminate.
Defined.

Lemma X20_save_commits_open_meeting_witness :
  let meeting := mkMeeting (lit "20240115093000") (lit "Team Meeting")
                   (lit "2024-01-15") 30 [lit "Alice"] [] [] [] []
                   (PList []) in
  let st := mkSession [] (Some meeting) false [] in
  exists st' w' m',
    on_save (fun _ => 20760%Z) (fun l => l) (fun _ _ => Ok tt)
      (fun _ _ => Ok tt) (fun _ _ => Ok []) JsonBasic.json_loads_basic false
      (lit "Alice: I will send the budget") [lit "Alice"] st (mkWorld 0 0 [])
    = (Ok st', w')
    /\ id m' = id meeting
    /\ transcript m' = lit "Alice: I will send the budget"
    /\ current_meeting st' = Some m'
    /\ filter (has_id (id meeting)) (meetings st') = [m']
    /\ filter (fun x => negb (has_id (id meeting) x)) (meetings st')
       = filter (fun x => negb (has_id (id meeting) x)) (meetings st)
    /\ is_recording st' = is_recording st
    /\ api_key st' = api_key st.
Proof.
  cbv zeta.
  apply (X20_save_commits_open_meeting (fun _ => 20760%Z) (fun l => l)
           (fun _ _ => Ok tt) (fun _ _ => Ok tt) (fun _ _ => Ok [])
           JsonBasic.json_loads_basic).
  reflexivity.
Defined.
